(** * Signing backend: a shallow embedding of [src/server.js]

    The development follows the layout of the server file: text
    utilities, PDF helpers (page clamping, signature geometry, word
    wrapping), the template registry, the template input mapper, the
    draft self-healer and the two signing routes.  Each definition keeps
    the name of the JavaScript function it embeds. *)

From Stdlib Require Import ZArith QArith Lia.
From stdpp Require Import base option list strings gmap pretty.

Open Scope Z_scope.

(** ** JavaScript strings

    A JavaScript string is a sequence of UTF-16 code units.  The text
    functions of the server ([safeFolderName], [wrapLines]) work on code
    units (the regular expressions carry no [u] flag), so texts are lists
    of code-unit values. *)

Definition jsstring := list N.

Definition js (s : string) : jsstring :=
  map Ascii.N_of_ascii (String.list_ascii_of_string s).

(** The class [\s] of ECMAScript: white space and line terminators.
    [String.prototype.trim] strips exactly the same set. *)
Definition isSpace (c : N) : bool :=
  ((9 <=? c) && (c <=? 13) || (c =? 32) || (c =? 160) || (c =? 5760)
   || (8192 <=? c) && (c <=? 8202) || (c =? 8232) || (c =? 8233)
   || (c =? 8239) || (c =? 8287) || (c =? 12288) || (c =? 65279))%N.

(** The class [\w]: [A-Za-z0-9_]. *)
Definition isWord (c : N) : bool :=
  ((48 <=? c) && (c <=? 57) || (65 <=? c) && (c <=? 90) || (c =? 95)
   || (97 <=? c) && (c <=? 122))%N.

Definition SPACE : N := 32%N.
Definition HYPHEN : N := 45%N.
Definition DOT : N := 46%N.
Definition HASH : N := 35%N.

(** Truthiness of a string value: [''] is falsy. *)
Definition nonEmpty (s : jsstring) : bool :=
  match s with [] => false | _ :: _ => true end.

Fixpoint dropWhile (p : N → bool) (s : jsstring) : jsstring :=
  match s with
  | [] => []
  | c :: s' => if p c then dropWhile p s' else s
  end.

(** [s.replace(/^p+/, '')] and [s.replace(/p+$/, '')] for a character
    class [p]. *)
Definition stripStart (p : N → bool) (s : jsstring) : jsstring := dropWhile p s.
Definition stripEnd (p : N → bool) (s : jsstring) : jsstring :=
  rev (dropWhile p (rev s)).

Definition trim (s : jsstring) : jsstring := stripEnd isSpace (stripStart isSpace s).

(** [s.replace(/\s+/g, ' ')]: every maximal run of white space becomes one
    space.  [insep] records that the previous unit was white space. *)
Fixpoint collapse_go (insep : bool) (s : jsstring) : jsstring :=
  match s with
  | [] => []
  | c :: s' =>
      if isSpace c
      then (if insep then collapse_go true s' else SPACE :: collapse_go true s')
      else c :: collapse_go false s'
  end.
Definition collapseSpaces (s : jsstring) : jsstring := collapse_go false s.

(** [s.split(/\s+/)]: the pieces between maximal runs of white space, the
    empty pieces at both ends included (['' ] splits to [['']]). *)
Fixpoint split_go (insep : bool) (cur : jsstring) (s : jsstring) : list jsstring :=
  match s with
  | [] => [cur]
  | c :: s' =>
      if isSpace c
      then (if insep then split_go true [] s' else cur :: split_go true [] s')
      else split_go false (cur ++ [c]) s'
  end.
Definition splitSpaces (s : jsstring) : list jsstring := split_go false [] s.

(** [toLowerCase] on the ASCII range.  The only caller applies it to a
    string whose units are all in [[A-Za-z0-9_ -]] (see
    [safeFolderName_clean_chars]), where it agrees with the full Unicode
    mapping. *)
Definition toLowerCase (s : jsstring) : jsstring :=
  map (λ c, if ((65 <=? c) && (c <=? 90))%N then (c + 32)%N else c) s.

Definition jsstring_eqb (a b : jsstring) : bool := bool_decide (a = b).

(** ** Utils: [safeFolderName] *)

Section SafeFolderName.

(** [String.prototype.normalize('NFKD')] is a runtime built-in. *)
Variable normalizeNFKD : jsstring → jsstring.

(** [.replace(/[^\w\-]/g, ' ')] *)
Definition replaceNonWord (s : jsstring) : jsstring :=
  map (λ c, if isWord c || (c =? HYPHEN)%N then c else SPACE) s.

Definition isDotOrHash (c : N) : bool := ((c =? DOT) || (c =? HASH))%N.
Definition isDot (c : N) : bool := (c =? DOT)%N.

(** The value of [s] after line 294 of the source: the input (or
    ['Client'] when it is missing or empty) normalised, with every
    non-word unit turned into a space, runs of spaces collapsed, the
    ends trimmed, trailing dots and hashes and leading dots removed. *)
Definition safeFolderName_clean (name : option jsstring) : jsstring :=
  let name0 :=
    match name with
    | Some n => if nonEmpty n then n else js "Client"
    | None => js "Client"
    end in
  let s := trim (collapseSpaces (replaceNonWord (normalizeNFKD name0))) in
  stripStart isDot (stripEnd isDotOrHash s).

Definition safeFolderName (name : option jsstring) : jsstring :=
  let s := safeFolderName_clean name in
  let s :=
    if negb (nonEmpty s) || jsstring_eqb (toLowerCase s) (js "forms")
    then js "Client" else s in
  if (100 <? length s)%nat then trim (take 100 s) else s.

End SafeFolderName.

(** The units that survive [replaceNonWord]: word characters, the hyphen
    and the space. *)
Definition folderChar (c : N) : bool :=
  isWord c || (c =? HYPHEN)%N || (c =? SPACE)%N.

(** [s.split(',')[0]]: the text before the first comma. *)
Fixpoint beforeComma (s : jsstring) : jsstring :=
  match s with
  | [] => []
  | c :: s' => if (c =? 44)%N then [] else c :: beforeComma s'
  end.

(** [s.split(',')] *)
Fixpoint splitComma_go (cur : jsstring) (s : jsstring) : list jsstring :=
  match s with
  | [] => [cur]
  | c :: s' => if (c =? 44)%N then cur :: splitComma_go [] s' else splitComma_go (cur ++ [c]) s'
  end.
Definition splitComma (s : jsstring) : list jsstring := splitComma_go [] s.

(** [parts.join(sep)] *)
Fixpoint join (sep : jsstring) (parts : list jsstring) : jsstring :=
  match parts with
  | [] => []
  | [p] => p
  | p :: ps => p ++ sep ++ join sep ps
  end.

(** A text whose units are all ASCII, as a path component. *)
Definition ascii_string (s : jsstring) : string :=
  String.string_of_list_ascii (map Ascii.ascii_of_N s).

(** ** Dates

    [Date.now()] is a count of milliseconds since the epoch.  The civil
    date of a day count follows the proleptic Gregorian calendar. *)

Definition MS_PER_DAY : Z := 86400000.

Record CivilTime := {
  ct_year : Z; ct_month : Z; ct_day : Z;
  ct_hour : Z; ct_minute : Z; ct_second : Z; ct_ms : Z
}.

Definition civil_from_days (z0 : Z) : Z * Z * Z :=
  let z := z0 + 719468 in
  let era := z / 146097 in
  let doe := z - era * 146097 in
  let yoe := (doe - doe / 1460 + doe / 36524 - doe / 146096) / 365 in
  let doy := doe - (365 * yoe + yoe / 4 - yoe / 100) in
  let mp := (5 * doy + 2) / 153 in
  let d := doy - (153 * mp + 2) / 5 + 1 in
  let m := if mp <? 10 then mp + 3 else mp - 9 in
  let y := yoe + era * 400 in
  (if m <=? 2 then y + 1 else y, m, d).

Definition civilTime (now : Z) : CivilTime :=
  let '(y, m, d) := civil_from_days (now / MS_PER_DAY) in
  let r := now mod MS_PER_DAY in
  {| ct_year := y; ct_month := m; ct_day := d;
     ct_hour := r / 3600000; ct_minute := (r / 60000) mod 60;
     ct_second := (r / 1000) mod 60; ct_ms := r mod 1000 |}.

Definition pad2 (n : Z) : string :=
  if n <? 10 then "0" +:+ pretty n else pretty n.
Definition pad3 (n : Z) : string :=
  if n <? 10 then "00" +:+ pretty n else if n <? 100 then "0" +:+ pretty n else pretty n.
Definition pad4 (n : Z) : string :=
  if n <? 10 then "000" +:+ pretty n else if n <? 100 then "00" +:+ pretty n
  else if n <? 1000 then "0" +:+ pretty n else pretty n.

(** [new Date(now).toISOString()], for years 0 to 9999. *)
Definition toISOString (now : Z) : string :=
  let t := civilTime now in
  pad4 (ct_year t) +:+ "-" +:+ pad2 (ct_month t) +:+ "-" +:+ pad2 (ct_day t) +:+ "T"
  +:+ pad2 (ct_hour t) +:+ ":" +:+ pad2 (ct_minute t) +:+ ":" +:+ pad2 (ct_second t)
  +:+ "." +:+ pad3 (ct_ms t) +:+ "Z".

(** [toLocaleDateString] and [toLocaleString] for the locale [en-US] in
    the time zone UTC.  Both built-ins depend on the host's locale and
    time zone; the mapper below takes them as parameters and this pair
    is one concrete host. *)
Definition toLocaleDateString_enUS (now : Z) : jsstring :=
  let t := civilTime now in
  js (pretty (ct_month t) +:+ "/" +:+ pretty (ct_day t) +:+ "/" +:+ pretty (ct_year t)).

Definition toLocaleString_enUS (now : Z) : jsstring :=
  let t := civilTime now in
  let h12 := if ct_hour t mod 12 =? 0 then 12 else ct_hour t mod 12 in
  toLocaleDateString_enUS now ++
  js (", " +:+ pretty h12 +:+ ":" +:+ pad2 (ct_minute t) +:+ ":" +:+ pad2 (ct_second t)
      +:+ (if ct_hour t <? 12 then " AM" else " PM")).

(** [s.replace(/[:.]/g, '-')] *)
Fixpoint replaceColonDot (s : string) : string :=
  match s with
  | EmptyString => EmptyString
  | String c s' =>
      String (if ((Ascii.N_of_ascii c =? 58) || (Ascii.N_of_ascii c =? 46))%N
              then Ascii.ascii_of_N 45 else c)
             (replaceColonDot s')
  end.

Definition nowIso (now : Z) : string := toISOString now.

(** ** PDF helpers *)

(** A wanted page: a 1-based page number or the sentinel ['last']. *)
Inductive PageSel := PageLast | PageNum (n : Z).

(** A loaded PDF, as far as the helpers look at it: the size of each
    page.  Sizes, coordinates and page numbers are modelled as integers
    (every number of the template registry is one). *)
Record PageSize := { pageWidth : Z; pageHeight : Z }.
Definition PdfDoc := list PageSize.

Definition getPageCount (pdf : PdfDoc) : Z := Z.of_nat (length pdf).

(** [pdfDoc.getPage(idx)] throws when [idx] is not the index of a page. *)
Definition getPage (pdf : PdfDoc) (idx : Z) : option PageSize :=
  if 0 <=? idx then pdf !! Z.to_nat idx else None.

(** [v || d] on numbers: [undefined] and [0] are falsy. *)
Definition orNum (v : option Z) (d : Z) : Z :=
  match v with
  | Some n => if n =? 0 then d else n
  | None => d
  end.

Record SafePage := { sp_index : Z; sp_page : PageSize; sp_warned : bool }.

(** [getSafePage]: [None] stands for the exception of [getPage];
    [sp_warned] tells whether the warning of line 310 was logged. *)
Definition getSafePage (pdf : PdfDoc) (wantedPage : option PageSel) : option SafePage :=
  let count := getPageCount pdf in
  let idx :=
    match wantedPage with
    | Some PageLast => count - 1
    | Some (PageNum n) => Z.min (Z.max 0 (orNum (Some n) 1 - 1)) (count - 1)
    | None => Z.min (Z.max 0 (orNum None 1 - 1)) (count - 1)
    end in
  let warned :=
    match wantedPage with
    | Some (PageNum n) => negb (count =? 0) && negb (idx =? n - 1)
    | _ => false
    end in
  match getPage pdf idx with
  | Some p => Some {| sp_index := idx; sp_page := p; sp_warned := warned |}
  | None => None
  end.

(** Placement attributes of a signature: a template anchor or the
    override sent with a request.  A missing attribute is [None]. *)
Record Coords := {
  c_page : option PageSel;
  c_x : option Z; c_y : option Z;
  c_width : option Z; c_height : option Z;
  c_origin : option string
}.

Definition emptyCoords : Coords :=
  {| c_page := None; c_x := None; c_y := None; c_width := None; c_height := None;
     c_origin := None |}.

Definition orField {A} (over base : option A) : option A :=
  match over with Some v => Some v | None => base end.

(** [{ ...(templateCoords || {}), ...(override || {}) }] *)
Definition mergeCoords (templateCoords override : option Coords) : Coords :=
  let t := default emptyCoords templateCoords in
  let o := default emptyCoords override in
  {| c_page := orField (c_page o) (c_page t);
     c_x := orField (c_x o) (c_x t); c_y := orField (c_y o) (c_y t);
     c_width := orField (c_width o) (c_width t);
     c_height := orField (c_height o) (c_height t);
     c_origin := orField (c_origin o) (c_origin t) |}.

Record ResolvedCoords := {
  rc_page : PageSel; rc_x : Z; rc_y : Z; rc_width : Z; rc_height : Z; rc_origin : string
}.

Definition resolveSignatureCoords (pdf : PdfDoc) (templateCoords override : option Coords)
  : option ResolvedCoords :=
  let merged := mergeCoords templateCoords override in
  let page :=
    match c_page merged with
    | Some p => p
    | None => default PageLast (templateCoords ≫= c_page)
    end in
  match getSafePage pdf (Some page) with
  | None => None
  | Some p =>
      let width := Z.max 1 (orNum (c_width merged) 150) in
      let height := Z.max 1 (orNum (c_height merged) 50) in
      let origin :=
        match c_origin merged with
        | Some o => if bool_decide (o = "") then "top-left" else o
        | None => "top-left"
        end in
      let x := default 0 (c_x merged) in
      let y := default 0 (c_y merged) in
      let x := Z.min (Z.max 0 x) (pageWidth (sp_page p) - width) in
      let y := Z.min (Z.max 0 y) (pageHeight (sp_page p) - height) in
      Some {| rc_page := page; rc_x := x; rc_y := y; rc_width := width;
              rc_height := height; rc_origin := origin |}
  end.

(** An embedded PNG: its native pixel size. *)
Record PngImage := { png_width : Z; png_height : Z }.

(** What [stampSignatureWithTime] draws: the image rectangle of
    [p.drawImage] and the label line of [p.drawText] beneath it. *)
Record StampDraw := {
  sd_page : Z;
  sd_x : Z; sd_y : Z; sd_width : Z; sd_height : Z;
  sd_label : string; sd_label_y : Z
}.

(** The geometry of [stampSignatureWithTime] (lines 376 to 388), given the
    loaded PDF and the embedded image. *)
Definition stampPlacement (pdf : PdfDoc) (png : PngImage)
    (templateCoords overrideCoords : option Coords) (label : string) : option StampDraw :=
  match resolveSignatureCoords pdf templateCoords overrideCoords with
  | None => None
  | Some coords =>
      match getSafePage pdf (Some (rc_page coords)) with
      | None => None
      | Some p =>
          let width := orNum (Some (rc_width coords)) (png_width png) in
          let height := orNum (Some (rc_height coords)) (png_height png) in
          let x := rc_x coords in
          let y :=
            if bool_decide (rc_origin coords = "top-left")
            then pageHeight (sp_page p) - rc_y coords - height
            else rc_y coords in
          Some {| sd_page := sp_index p; sd_x := x; sd_y := y;
                  sd_width := width; sd_height := height;
                  sd_label := label; sd_label_y := y - 14 |}
      end
  end.

(** ** Field renderer: [wrapLines] *)

Section FieldRenderer.

(** [font.widthOfTextAtSize(text, size)] of the embedded font. *)
Variable widthOfTextAtSize : jsstring → Q → Q.

(** One round of the loop of lines 340 to 344, on the pair of the lines
    pushed so far and the current line. *)
Definition wrapStep (size maxWidth : Q) (acc : list jsstring * jsstring) (w : jsstring)
  : list jsstring * jsstring :=
  let '(lines, line) := acc in
  let test := if nonEmpty line then line ++ [SPACE] ++ w else w in
  if Qle_bool (widthOfTextAtSize test size) maxWidth
  then (lines, test)
  else (if nonEmpty line then lines ++ [line] else lines, w).

(** [maxWidth] is [None] when the placement has none; [0] is falsy too. *)
Definition wrapLines (text : jsstring) (size : Q) (maxWidth : option Q) : list jsstring :=
  match maxWidth with
  | None => [text]
  | Some mw =>
      if Qeq_bool mw 0 then [text]
      else
        let words := splitSpaces text in
        let '(lines, line) := foldl (wrapStep size mw) ([], []) words in
        if nonEmpty line then lines ++ [line] else lines
  end.

End FieldRenderer.

(** The words of a text: its non-empty pieces between white space. *)
Definition nonEmptyPieces (ws : list jsstring) : list jsstring := filter (λ w, w ≠ []) ws.
Definition wordsOf (s : jsstring) : list jsstring := nonEmptyPieces (splitSpaces s).

Definition noSpace (w : jsstring) : Prop := Forall (λ c, isSpace c = false) w.

(** A line is acceptable when it measures at most [maxWidth] or is a
    single word of the text. *)
Definition lineFits (widthOfTextAtSize : jsstring → Q → Q) (size maxWidth : Q)
    (text l : jsstring) : Prop :=
  (widthOfTextAtSize l size <= maxWidth)%Q ∨ l ∈ wordsOf text.

(** A fixed-pitch metric, every glyph half an em wide, used to run
    [wrapLines] on concrete texts. *)
Definition halfEmWidth (s : jsstring) (size : Q) : Q :=
  (inject_Z (Z.of_nat (length s)) * size * (1 # 2))%Q.

(** ** The runtime

    What the server takes from its host: built-ins of the JavaScript
    runtime and of the PDF library, and the process environment. *)

Record Runtime := {
  rt_ROOT_DIR : string;                         (* __dirname *)
  rt_DIRECTOR_EMAILS : option jsstring;         (* process.env.DIRECTOR_EMAILS *)
  rt_DIRECTOR_EMAIL : option jsstring;          (* process.env.DIRECTOR_EMAIL *)
  rt_normalizeNFKD : jsstring → jsstring;       (* String.prototype.normalize('NFKD') *)
  rt_widthOfTextAtSize : jsstring → Q → Q;      (* Helvetica metrics of pdf-lib *)
  rt_toLocaleString : Z → jsstring;             (* Date.prototype.toLocaleString() *)
  rt_toLocaleDateString : Z → jsstring;         (* Date.prototype.toLocaleDateString() *)
  rt_numToString : Q → jsstring;                (* `${n}` *)
  rt_toFixed2 : Q → jsstring;                   (* n.toFixed(2) *)
  rt_embedPng : string → option PngImage        (* dataUrlToBuffer, then pdfDoc.embedPng *)
}.

(** ** Field renderer: [drawFieldsOnPdf] *)

(** A placement of the registry's field maps.  Every placement of the
    registry gives page, x, y, size and origin; [maxWidth] is optional and
    no placement sets [lineHeight] or [color]. *)
Record FieldSpec := {
  fs_page : Z; fs_x : Z; fs_y : Z; fs_size : Z; fs_origin : string;
  fs_maxWidth : option Z
}.

Record TextDraw := {
  td_page : Z; td_text : jsstring; td_x : Q; td_y : Q; td_size : Q
}.

Definition LINE_HEIGHT : Q := 12 # 10.

Definition drawOnePlacement (E : Runtime) (p : SafePage) (spec : FieldSpec) (value : jsstring)
  : list TextDraw :=
  let size := inject_Z (fs_size spec) in
  let x := inject_Z (fs_x spec) in
  let y :=
    if bool_decide (fs_origin spec = "top-left")
    then inject_Z (pageHeight (sp_page p) - fs_y spec)
    else inject_Z (fs_y spec) in
  let draw (text : jsstring) (y : Q) :=
    {| td_page := sp_index p; td_text := text; td_x := x; td_y := y; td_size := size |} in
  if negb (orNum (fs_maxWidth spec) 0 =? 0)
  then
    let lines := wrapLines (rt_widthOfTextAtSize E) value size (inject_Z <$> fs_maxWidth spec) in
    imap (λ i line, draw line (y - inject_Z (Z.of_nat i) * (size * LINE_HEIGHT))%Q) lines
  else [draw value y].

Definition FieldMap := list (string * list FieldSpec).

(** The loop of lines 359 to 367; [None] when [getSafePage] throws. *)
Fixpoint drawPlacements (E : Runtime) (pdf : PdfDoc) (placements : list FieldSpec)
    (value : jsstring) : option (list TextDraw) :=
  match placements with
  | [] => Some []
  | spec :: rest =>
      match getSafePage pdf (Some (PageNum (orNum (Some (fs_page spec)) 1))) with
      | None => None
      | Some p =>
          match drawPlacements E pdf rest value with
          | None => None
          | Some ds => Some (drawOnePlacement E p spec value ++ ds)
          end
      end
  end.

Fixpoint drawFields (E : Runtime) (pdf : PdfDoc) (fieldMap : FieldMap)
    (inputData : gmap string jsstring) : option (list TextDraw) :=
  match fieldMap with
  | [] => Some []
  | (key, placements) :: rest =>
      let value := default [] (inputData !! key) in
      if nonEmpty value
      then
        match drawPlacements E pdf placements value with
        | None => None
        | Some ds =>
            match drawFields E pdf rest inputData with
            | None => None
            | Some ds' => Some (ds ++ ds')
            end
        end
      else drawFields E pdf rest inputData
  end.

(** ** Template registry *)

Record Template := {
  t_name : string;
  t_path : string;
  t_fieldMap : FieldMap;
  t_clientSig : option Coords;
  t_directorSig : option Coords;
  t_director1Sig : option Coords
}.

Definition fld (page x y size : Z) : list FieldSpec :=
  [ {| fs_page := page; fs_x := x; fs_y := y; fs_size := size; fs_origin := "top-left";
       fs_maxWidth := None |} ].

Definition fldW (page x y size maxWidth : Z) : list FieldSpec :=
  [ {| fs_page := page; fs_x := x; fs_y := y; fs_size := size; fs_origin := "top-left";
       fs_maxWidth := Some maxWidth |} ].

Definition sigAt (page x y : Z) : option Coords :=
  Some {| c_page := Some (PageNum page); c_x := Some x; c_y := Some y;
          c_width := Some 150; c_height := Some 50; c_origin := Some "top-left" |}.

Definition TEMPLATES : list Template := [
  {| t_name := "ServiceAgreement";
     t_path := "Engagement-letter.pdf";
     t_fieldMap := [
       ("businessName", fld 2 171 563 10);
       ("tradingName", fld 2 171 540 10);
       ("clientFullName", fld 2 171 484 10);
       ("dateOfBirth", fld 2 171 462 10);
       ("email", fldW 2 169 450 10 260);
       ("phone", fld 2 405 484 10);
       ("registeredOffice", fld 2 171 395 10);
       ("registeredPostCode", fld 2 405 395 10);
       ("postalAddress", fld 2 171 347 10);
       ("postalPostCode", fld 2 405 347 10);
       ("businessAddress", fld 2 171 297 10);
       ("businessPostCode", fld 2 405 297 10);
       ("departmentContact", fld 2 171 259 10);
       ("contactNumber", fld 2 405 259 10);
       ("departmentEmail", fld 2 171 237 10);
       ("officeNumber", fld 2 405 450 10);
       ("nameOfDirector", fld 2 171 217 10);
       ("addressOfDirector", fld 2 405 217 10);
       ("driversLicense", fld 2 171 195 10);
       ("ACN", fld 2 405 566 10);
       ("ABN", fld 2 405 521 10);
       ("acn_abn", fld 2 171 170 10);
       ("mainService", fld 4 319 554 11);
       ("contractStartDate", fld 3 182 428 10);
       ("JobType", fld 3 182 400 10);
       ("businessType", fld 2 171 150 10);
       ("address", fld 2 2 130 10);
       ("city", fld 2 171 110 10);
       ("state", fld 2 171 90 10);
       ("postalCode", fld 2 405 90 10);
       ("website", fld 2 171 70 10);
       ("additionalNotes", fldW 2 171 50 10 260);
       ("planName", fld 1 150 620 10);
       ("planPrice", fld 1 420 620 10);
       ("addOns", fldW 1 150 600 10 360);
       ("total", fld 1 420 580 12) ];
     t_clientSig := sigAt 4 338 125;
     t_directorSig := sigAt 4 338 72;
     t_director1Sig := None |};
  {| t_name := "CustomerInformation";
     t_path := "guarantee-page.pdf";
     t_fieldMap := [
       ("businessName", fld 1 388 616 10);
       ("ACN", fld 1 101 605 10);
       ("ABN", fld 1 101 563 10);
       ("directorName", fld 1 384 102 10);
       ("submittedAt", fld 1 338 74 10) ];
     t_clientSig := sigAt 1 338 125;
     t_directorSig := sigAt 1 64 466;
     t_director1Sig := sigAt 1 350 466 |};
  {| t_name := "PricingSchedule";
     t_path := "privacy-policy.pdf";
     t_fieldMap := [
       ("businessName", fld 1 150 660 10);
       ("service", fld 1 150 640 10);
       ("planName", fld 1 150 620 10);
       ("planPrice", fld 1 420 620 10);
       ("addOnsSummary", fldW 1 150 600 10 360);
       ("total", fld 1 420 580 12) ];
     t_clientSig := sigAt 1 420 90;
     t_directorSig := sigAt 1 420 40;
     t_director1Sig := None |};
  {| t_name := "ConfidentialityAgreement";
     t_path := "terms.pdf";
     t_fieldMap := [
       ("businessName", fld 4 120 362 10);
       ("date", fld 4 430 630 10);
       ("ACN", fld 4 406 608 10);
       ("ABN", fld 4 406 563 10) ];
     t_clientSig := sigAt 4 380 80;
     t_directorSig := sigAt 4 63 466;
     t_director1Sig := sigAt 4 350 466 |}
].

(** [TEMPLATES.find(t => t.name === name)] *)
Definition findTemplate (name : string) : option Template :=
  snd <$> list_find (λ t, t_name t = name) TEMPLATES.

Definition getDirectorSigSpec (template : option Template) (directorIndex : nat)
  : option Coords :=
  match template with
  | None => None
  | Some t =>
      let fallback := orField (t_directorSig t) (t_director1Sig t) in
      match directorIndex, t_directorSig t with
      | O, Some s => Some s
      | 1%nat, _ =>
          match t_director1Sig t, t_directorSig t with
          | Some s1, _ => Some s1
          | None, Some s =>
              Some {| c_page := c_page s; c_x := c_x s; c_y := (λ y, y + 60) <$> c_y s;
                      c_width := c_width s; c_height := c_height s; c_origin := c_origin s |}
          | None, None => fallback
          end
      | _, _ => fallback
      end
  end.

(** ** Template input mapping: [buildTemplateInput] *)

(** A pricing summary ([summarySchema]).  Prices are rationals; their
    rendering is the runtime's. *)
Record Plan := { plan_name : option jsstring; plan_price : option Q }.
Record AddOn := { addon_name : option jsstring; addon_price : option Q }.
Record Summary := {
  s_email : option jsstring;
  s_service : option jsstring;
  s_plan : option Plan;
  s_addOns : option (list AddOn);
  s_total : option Q;
  s_createdAt : Z
}.

(** The agreement data handed to the mapper: the string fields of the
    record by name, and the submission date. *)
Record AgreementData := {
  ad_fields : gmap string jsstring;
  ad_submittedAt : option Z
}.

(** [a || b] on strings. *)
Definition orStr (a b : jsstring) : jsstring := if nonEmpty a then a else b.

(** The keys of [base] copied from the agreement (lines 539 to 571), each
    with the agreement field it reads. *)
Definition copiedFields : list (string * string) := [
  ("businessName", "businessName"); ("tradingName", "tradingName");
  ("clientFullName", "clientFullName"); ("dateOfBirth", "dateOfBirth");
  ("email", "email"); ("phone", "phone");
  ("registeredOffice", "registeredOffice"); ("registeredPostCode", "registeredPostCode");
  ("postalAddress", "postalAddress"); ("postalPostCode", "postalPostCode");
  ("businessAddress", "businessAddress"); ("businessPostCode", "businessPostCode");
  ("departmentContact", "departmentContact"); ("contactNumber", "contactNumber");
  ("departmentEmail", "departmentEmail"); ("officeNumber", "officeNumber");
  ("nameOfDirector", "nameOfDirector"); ("addressOfDirector", "addressOfDirector");
  ("driversLicense", "driversLicense"); ("acn_abn", "acn_abn");
  ("mainService", "mainService");
  ("contractStart", "contractStartDate"); ("contractStartDate", "contractStartDate");
  ("businessType", "businessType"); ("ACN", "ACN"); ("ABN", "ABN");
  ("address", "address"); ("city", "city"); ("state", "state");
  ("postalCode", "postalCode"); ("website", "website");
  ("additionalNotes", "additionalNotes")
].

(** A value inside a template literal: [undefined] prints as such. *)
Definition tmpl (v : option jsstring) : jsstring := default (js "undefined") v.

Definition addOnLine (E : Runtime) (a : AddOn) : jsstring :=
  tmpl (addon_name a) ++ js " ($" ++ tmpl (rt_numToString E <$> addon_price a) ++ js ")".

Definition money (E : Runtime) (v : option Q) : jsstring :=
  match v with
  | Some n => js "$" ++ rt_toFixed2 E n
  | None => []
  end.

Definition emptyStr : jsstring := [].

(** [obj.key || ''] *)
Definition getField (obj : gmap string jsstring) (k : string) : jsstring :=
  default emptyStr (obj !! k).

(** Lines 538 to 593: the object [base] before the template-specific
    keys.  [submittedAt] is the string computed at line 573. *)
Definition baseInput (submittedAt : jsstring) (agreementData : AgreementData)
  : gmap string jsstring :=
  let field k := getField (ad_fields agreementData) k in
  let base : gmap string jsstring :=
    list_to_map (map (λ kv, (kv.1, field kv.2)) copiedFields) in
  let base := <["submittedAt" := submittedAt]> base in
  let get := getField in
  let base := <["companyName" := get base "businessName"]> base in
  let base := <["dearName" := get base "businessName"]> base in
  let base := <["customerName" := get base "businessName"]> base in
  let base := <["clientEmail" := get base "email"]> base in
  let base := <["mobileNumber" := get base "phone"]> base in
  let base := <["postCode" :=
                  orStr (get base "registeredPostCode")
                    (orStr (get base "postalPostCode")
                       (orStr (get base "businessPostCode") emptyStr))]> base in
  let base := <["p4CompanyName" := get base "businessName"]> base in
  let base := <["servicesAssist" := orStr (get base "mainService") emptyStr]> base in
  let base := <["directorName" := get base "nameOfDirector"]> base in
  let base := <["p5ClientName" := get base "clientFullName"]> base in
  let base := <["p5OtherName" := get base "directorName"]> base in
  let dateOnly := beforeComma (get base "submittedAt") in
  let base := <["p5Date1" := dateOnly]> base in
  let base := <["p5Date2" := dateOnly]> base in
  let base := <["guarantorCompany" := get base "businessName"]> base in
  <["guarantorACNABN" :=
      orStr (get base "ACN") (orStr (get base "ABN") (get base "acn_abn"))]> base.

(** Lines 595 to 602: the pricing keys, for the pricing schedule when a
    summary is at hand. *)
Definition pricingInput (E : Runtime) (templateName : string) (summaryData : option Summary)
    (base : gmap string jsstring) : gmap string jsstring :=
  match summaryData with
  | Some summary =>
      if bool_decide (templateName = "PricingSchedule")
      then
        let addOnsSummary :=
          join (js ", ") (map (addOnLine E) (default ([] : list AddOn) (s_addOns summary))) in
        let base := <["service" :=
                        orStr (default emptyStr (s_service summary))
                          (orStr (getField base "servicesAssist") emptyStr)]> base in
        let base := <["planName" :=
                        orStr (default emptyStr (s_plan summary ≫= plan_name)) emptyStr]> base in
        let base := <["planPrice" := money E (s_plan summary ≫= plan_price)]> base in
        let base := <["addOnsSummary" := addOnsSummary]> base in
        <["total" := money E (s_total summary)]> base
      else base
  | None => base
  end.

(** [now] is the reading of the clock: [Date.now()] at line 573 and
    [new Date()] at line 604. *)
Definition buildTemplateInput (E : Runtime) (now : Z) (templateName : string)
    (agreementData : AgreementData) (summaryData : option Summary) : gmap string jsstring :=
  let submittedAt := rt_toLocaleString E (default now (ad_submittedAt agreementData)) in
  let base := baseInput submittedAt agreementData in
  let base := pricingInput E templateName summaryData base in
  if bool_decide (templateName = "ConfidentialityAgreement")
  then <["executedDate" := rt_toLocaleDateString E now]> base
  else base.

(** One concrete host: locale [en-US] in UTC, the identity for
    [normalize] (exact on ASCII text), the fixed-pitch metric, integer
    prices, every signature image 300 by 120 pixels, two directors. *)
Definition hostUTC : Runtime :=
  {| rt_ROOT_DIR := "/app";
     rt_DIRECTOR_EMAILS := Some (js "d1@bpo.example, d2@bpo.example");
     rt_DIRECTOR_EMAIL := None;
     rt_normalizeNFKD := λ s, s;
     rt_widthOfTextAtSize := halfEmWidth;
     rt_toLocaleString := toLocaleString_enUS;
     rt_toLocaleDateString := toLocaleDateString_enUS;
     rt_numToString := λ q, js (pretty (Qnum q / Zpos (Qden q)));
     rt_toFixed2 := λ q, js (pretty (Qnum q / Zpos (Qden q)) +:+ ".00");
     rt_embedPng := λ _, Some {| png_width := 300; png_height := 120 |} |}.

(** ** Capability tokens

    [jsonwebtoken] with a secret only the server holds: the tokens that
    verify are those the server signed, until they expire.  A token is
    either such a signed claim set with its issue time (in seconds) or
    any other string. *)

Record Claims := {
  agid : nat;
  docName : option string;
  role : string;
  directorIndex : option nat
}.

Inductive Token :=
| SignedJwt (claims : Claims) (iat : Z)
| OpaqueToken (s : string).

Inductive Result (A : Type) :=
| Ok (a : A)
| Throw (message : string).
Arguments Ok {A} a.
Arguments Throw {A} message.

(** [expiresIn: '7d'], in seconds. *)
Definition TOKEN_TTL : Z := 7 * 24 * 3600.

Definition jwt_sign (c : Claims) (now : Z) : Token := SignedJwt c (now / 1000).

Definition jwt_verify (t : Token) (now : Z) : Result Claims :=
  match t with
  | SignedJwt c iat =>
      if now / 1000 <? iat + TOKEN_TTL then Ok c else Throw "jwt expired"
  | OpaqueToken _ => Throw "jwt malformed"
  end.

(** ** Schemas *)

Record DirectorSlot := {
  ds_email : jsstring;
  ds_directorSignToken : option Token;
  ds_signatureImagePath : option string;
  ds_signature : option string;
  ds_signed : bool;
  ds_signedDate : option Z
}.

Record Document := {
  d_name : string;
  d_draftPdfPath : option string;
  d_clientSignedPdfPath : option string;
  d_finalSignedPdfPath : option string;
  d_clientSignatureImagePath : option string;
  d_clientSignToken : option Token;
  d_clientSigned : bool;
  d_clientSignedDate : option Z;
  d_clientSignature : option string;
  d_directors : list DirectorSlot
}.

(** [ag_data] holds the string fields of [agreementSchema] by name
    ([businessName], [email], ...). *)
Record Agreement := {
  ag_id : nat;
  ag_data : gmap string jsstring;
  ag_submittedAt : Z;
  ag_documents : list Document;
  ag_clientSignToken : option Token;
  ag_clientSigned : bool;
  ag_directorSigned : bool;
  ag_clientSignedDate : option Z;
  ag_directorSignedDate : option Z
}.

(** Truthiness of an optional string field. *)
Definition truthy (v : option string) : bool :=
  match v with
  | Some s => negb (bool_decide (s = ""))
  | None => false
  end.

Definition isSome {A} (v : option A) : bool :=
  match v with Some _ => true | None => false end.

(** *** Assignments to fields *)

Definition set_draftPdfPath (d : Document) (p : string) : Document :=
  {| d_name := d_name d; d_draftPdfPath := Some p;
     d_clientSignedPdfPath := d_clientSignedPdfPath d;
     d_finalSignedPdfPath := d_finalSignedPdfPath d;
     d_clientSignatureImagePath := d_clientSignatureImagePath d;
     d_clientSignToken := d_clientSignToken d; d_clientSigned := d_clientSigned d;
     d_clientSignedDate := d_clientSignedDate d; d_clientSignature := d_clientSignature d;
     d_directors := d_directors d |}.

(** Lines 1016 to 1020. *)
Definition set_clientSignature (d : Document) (sigPath outFile signature : string) (now : Z)
  : Document :=
  {| d_name := d_name d; d_draftPdfPath := d_draftPdfPath d;
     d_clientSignedPdfPath := Some outFile;
     d_finalSignedPdfPath := d_finalSignedPdfPath d;
     d_clientSignatureImagePath := Some sigPath;
     d_clientSignToken := d_clientSignToken d; d_clientSigned := true;
     d_clientSignedDate := Some now; d_clientSignature := Some signature;
     d_directors := d_directors d |}.

Definition set_clientSignToken (d : Document) (t : Token) : Document :=
  {| d_name := d_name d; d_draftPdfPath := d_draftPdfPath d;
     d_clientSignedPdfPath := d_clientSignedPdfPath d;
     d_finalSignedPdfPath := d_finalSignedPdfPath d;
     d_clientSignatureImagePath := d_clientSignatureImagePath d;
     d_clientSignToken := Some t; d_clientSigned := d_clientSigned d;
     d_clientSignedDate := d_clientSignedDate d; d_clientSignature := d_clientSignature d;
     d_directors := d_directors d |}.

Definition set_directors (d : Document) (slots : list DirectorSlot) : Document :=
  {| d_name := d_name d; d_draftPdfPath := d_draftPdfPath d;
     d_clientSignedPdfPath := d_clientSignedPdfPath d;
     d_finalSignedPdfPath := d_finalSignedPdfPath d;
     d_clientSignatureImagePath := d_clientSignatureImagePath d;
     d_clientSignToken := d_clientSignToken d; d_clientSigned := d_clientSigned d;
     d_clientSignedDate := d_clientSignedDate d; d_clientSignature := d_clientSignature d;
     d_directors := slots |}.

Definition set_finalSignedPdfPath (d : Document) (p : string) : Document :=
  {| d_name := d_name d; d_draftPdfPath := d_draftPdfPath d;
     d_clientSignedPdfPath := d_clientSignedPdfPath d;
     d_finalSignedPdfPath := Some p;
     d_clientSignatureImagePath := d_clientSignatureImagePath d;
     d_clientSignToken := d_clientSignToken d; d_clientSigned := d_clientSigned d;
     d_clientSignedDate := d_clientSignedDate d; d_clientSignature := d_clientSignature d;
     d_directors := d_directors d |}.

(** Lines 1145 to 1148. *)
Definition set_directorSignature (s : DirectorSlot) (sigPath signature : string) (now : Z)
  : DirectorSlot :=
  {| ds_email := ds_email s; ds_directorSignToken := ds_directorSignToken s;
     ds_signatureImagePath := Some sigPath; ds_signature := Some signature;
     ds_signed := true; ds_signedDate := Some now |}.

Definition set_directorSignToken (s : DirectorSlot) (t : Token) : DirectorSlot :=
  {| ds_email := ds_email s; ds_directorSignToken := Some t;
     ds_signatureImagePath := ds_signatureImagePath s; ds_signature := ds_signature s;
     ds_signed := ds_signed s; ds_signedDate := ds_signedDate s |}.

Definition set_documents (ag : Agreement) (docs : list Document) : Agreement :=
  {| ag_id := ag_id ag; ag_data := ag_data ag; ag_submittedAt := ag_submittedAt ag;
     ag_documents := docs; ag_clientSignToken := ag_clientSignToken ag;
     ag_clientSigned := ag_clientSigned ag; ag_directorSigned := ag_directorSigned ag;
     ag_clientSignedDate := ag_clientSignedDate ag;
     ag_directorSignedDate := ag_directorSignedDate ag |}.

(** Lines 1050 and 1051. *)
Definition set_agClientSigned (ag : Agreement) (now : Z) : Agreement :=
  {| ag_id := ag_id ag; ag_data := ag_data ag; ag_submittedAt := ag_submittedAt ag;
     ag_documents := ag_documents ag; ag_clientSignToken := ag_clientSignToken ag;
     ag_clientSigned := true; ag_directorSigned := ag_directorSigned ag;
     ag_clientSignedDate := Some now;
     ag_directorSignedDate := ag_directorSignedDate ag |}.

(** Lines 1185 and 1186. *)
Definition set_agDirectorSigned (ag : Agreement) (now : Z) : Agreement :=
  {| ag_id := ag_id ag; ag_data := ag_data ag; ag_submittedAt := ag_submittedAt ag;
     ag_documents := ag_documents ag; ag_clientSignToken := ag_clientSignToken ag;
     ag_clientSigned := ag_clientSigned ag; ag_directorSigned := true;
     ag_clientSignedDate := ag_clientSignedDate ag;
     ag_directorSignedDate := Some now |}.

(** A document of the agreement is a sub-object of it: an assignment to
    a field of [ag.documents[i]] changes the agreement in memory. *)
Definition set_document (ag : Agreement) (i : nat) (d : Document) : Agreement :=
  set_documents ag (<[i := d]> (ag_documents ag)).

(** ** The world: store, files, mail *)

(** A file on disk.  A PDF file is its pages and what has been drawn on
    them. *)
Inductive Mark :=
| TextMark (t : TextDraw)
| SignatureMark (s : StampDraw).

Inductive FileData :=
| PdfFile (pdf : PdfDoc) (marks : list Mark)
| DataFile.

Inductive MailKind :=
| DraftPackMail (links : list Token)
| DirectorInviteMail (links : list (option Token))
| FinalPackMail.

Record Mail := {
  mail_to : option jsstring;
  mail_kind : MailKind;
  mail_attachments : list (option string)
}.

Record World := {
  agreements : gmap nat Agreement;      (* collection 'agreements', by _id *)
  summaries : list Summary;             (* collection 'summaries' *)
  files : gmap string FileData;         (* the file system *)
  nextObjectId : nat;                   (* source of fresh _id values *)
  outbox : list Mail                    (* mails handed to safeSendMail *)
}.

Definition set_files (w : World) (fs : gmap string FileData) : World :=
  {| agreements := agreements w; summaries := summaries w; files := fs;
     nextObjectId := nextObjectId w; outbox := outbox w |}.

(** [await ag.save()] *)
Definition save (w : World) (ag : Agreement) : World :=
  {| agreements := <[ag_id ag := ag]> (agreements w); summaries := summaries w;
     files := files w; nextObjectId := nextObjectId w; outbox := outbox w |}.

(** [await safeSendMail(...)]: the mail is handed over; a failed delivery
    is logged and never thrown. *)
Definition safeSendMail (w : World) (m : Mail) : World :=
  {| agreements := agreements w; summaries := summaries w; files := files w;
     nextObjectId := nextObjectId w; outbox := outbox w ++ [m] |}.

Definition existsSync (w : World) (p : string) : bool := isSome (files w !! p).

(** [fs.writeFileSync(path, data)] *)
Definition writeFileSync (w : World) (p : string) (data : FileData) : World :=
  set_files w (<[p := data]> (files w)).

(** [path.join(dir, name)] *)
Definition path_join (dir name : string) : string := dir +:+ "/" +:+ name.

Definition PDF_DIR (E : Runtime) : string := path_join (rt_ROOT_DIR E) "pdfs".
Definition SIG_DIR (E : Runtime) : string := path_join (rt_ROOT_DIR E) "signatures".
Definition PDF_TEMPLATES_DIR (E : Runtime) : string := path_join (rt_ROOT_DIR E) "pdf-templates".

(** [Summary.findOne({ email }).sort({ createdAt: -1 })] *)
Definition latestSummary (w : World) (email : option jsstring) : option Summary :=
  foldl (λ best s,
           if bool_decide (s_email s = email)
           then match best with
                | Some b => if s_createdAt b <? s_createdAt s then Some s else Some b
                | None => Some s
                end
           else best)
        None (summaries w).

(** [getDirectorEmails] *)
Definition getDirectorEmails (E : Runtime) : list jsstring :=
  let multi :=
    filter (λ s, s ≠ []) (map trim (splitComma (default emptyStr (rt_DIRECTOR_EMAILS E)))) in
  if bool_decide (multi ≠ []) then multi
  else match rt_DIRECTOR_EMAIL E with
       | Some e => if nonEmpty e then [e] else []
       | None => []
       end.

(** ** PDF files *)

(** [drawFieldsOnPdf]: reads the template, draws the fields, writes
    [outPath]. *)
Definition drawFieldsOnPdf (E : Runtime) (w : World) (templatePath : string)
    (fieldMap : FieldMap) (inputData : gmap string jsstring) (outPath : string)
  : Result World :=
  match files w !! templatePath with
  | None => Throw "ENOENT: no such file or directory"
  | Some DataFile => Throw "Failed to parse PDF document"
  | Some (PdfFile pdf marks) =>
      match drawFields E pdf fieldMap inputData with
      | None => Throw "index out of range"
      | Some draws =>
          Ok (writeFileSync w outPath (PdfFile pdf (marks ++ map TextMark draws)))
      end
  end.

(** [stampSignatureWithTime]: loads [inPath], resolves the placement,
    embeds the image, draws, writes [outPath]. *)
Definition stampSignatureWithTime (E : Runtime) (w : World) (inPath signatureDataUrl : string)
    (templateCoords overrideCoords : option Coords) (outPath label : string)
  : Result (World * StampDraw) :=
  match files w !! inPath with
  | None => Throw "ENOENT: no such file or directory"
  | Some DataFile => Throw "Failed to parse PDF document"
  | Some (PdfFile pdf marks) =>
      match resolveSignatureCoords pdf templateCoords overrideCoords with
      | None => Throw "index out of range"
      | Some _ =>
          match rt_embedPng E signatureDataUrl with
          | None => Throw "The input is not a PNG file"
          | Some png =>
              match stampPlacement pdf png templateCoords overrideCoords label with
              | None => Throw "index out of range"
              | Some draw =>
                  Ok (writeFileSync w outPath (PdfFile pdf (marks ++ [SignatureMark draw])),
                      draw)
              end
          end
      end
  end.

(** ** Self-heal drafts: [ensureDraftExists] *)

(** [agreement.toObject()] *)
Definition toObject (ag : Agreement) : AgreementData :=
  {| ad_fields := ag_data ag; ad_submittedAt := Some (ag_submittedAt ag) |}.

(** [doc] is [agreement.documents[i]].  The result is the regenerated
    path, the agreement in memory after the call, and the world after the
    write and the save. *)
Definition ensureDraftExists (E : Runtime) (w : World) (now : Z) (ag : Agreement)
    (i : nat) (doc : Document) : Result (string * Agreement * World) :=
  match findTemplate (d_name doc) with
  | None => Throw ("Template not found for " +:+ d_name doc)
  | Some template =>
      let templatePath := path_join (PDF_TEMPLATES_DIR E) (t_path template) in
      if negb (existsSync w templatePath)
      then Throw ("Template file missing: " +:+ t_path template)
      else
        let summary := latestSummary w (ag_data ag !! "email") in
        let input := buildTemplateInput E now (d_name doc) (toObject ag) summary in
        let outDraft :=
          path_join (PDF_DIR E)
                    ("rehydrated-" +:+ d_name doc +:+ "-" +:+ pretty now +:+ ".pdf") in
        match drawFieldsOnPdf E w templatePath (t_fieldMap template) input outDraft with
        | Throw m => Throw m
        | Ok w1 =>
            let doc1 :=
              if truthy (d_draftPdfPath doc) then doc else set_draftPdfPath doc outDraft in
            let ag1 := set_document ag i doc1 in
            Ok (outDraft, ag1, save w1 ag1)
        end
  end.

(** ** Routes *)

Inductive Body :=
| Message (m : string)                (* res.json({ message }) *)
| Text (m : string)                   (* res.send(text) *)
| NextDocToken (t : Token)            (* res.json({ nextDocToken }) *)
| Complete                            (* res.json({ complete: true }) *)
| Done                                (* res.json({ done: true }) *)
| PdfStream (path : string).          (* the file piped to the response *)

Record Response := { status : nat; body : Body }.

Definition reply (st : nat) (b : Body) : Response := {| status := st; body := b |}.

(** The body of a signing request and the token of its URL. *)
Record SignRequest := {
  rq_token : Token;
  rq_signature : option string;
  rq_coords : option Coords
}.

(** [a || b] on optional strings. *)
Definition orPath (a b : option string) : option string := if truthy a then a else b.

Definition tokenTruthy (t : option Token) : bool :=
  match t with
  | Some (OpaqueToken s) => negb (bool_decide (s = ""))
  | Some (SignedJwt _ _) => true
  | None => false
  end.

(** *** GET /api/sign/preview/:token *)

Definition previewPdf (E : Runtime) (w : World) (now : Z) (token : Token) : Response * World :=
  match jwt_verify token now with
  | Throw _ => (reply 404 (Text "PDF not found"), w)
  | Ok decoded =>
      match agreements w !! agid decoded with
      | None => (reply 404 (Text "Agreement not found"), w)
      | Some ag =>
          let found :=
            if truthy (docName decoded)
            then list_find (λ d, Some (d_name d) = docName decoded) (ag_documents ag)
            else (λ d, (0%nat, d)) <$> head (ag_documents ag) in
          match found with
          | None => (reply 404 (Text "Document not found"), w)
          | Some (i, doc) =>
              let filePath :=
                if bool_decide (role decoded = "client")
                then orPath (d_clientSignedPdfPath doc)
                       (orPath (d_draftPdfPath doc) (d_finalSignedPdfPath doc))
                else orPath (d_finalSignedPdfPath doc)
                       (orPath (d_clientSignedPdfPath doc) (d_draftPdfPath doc)) in
              if truthy filePath && existsSync w (default "" filePath)
              then (reply 200 (PdfStream (default "" filePath)), w)
              else
                match ensureDraftExists E w now ag i doc with
                | Throw _ => (reply 404 (Text "PDF not found"), w)
                | Ok (p, _, w1) => (reply 200 (PdfStream p), w1)
                end
          end
      end
  end.

(** *** POST /api/sign/:token *)

Definition clientClaims (ag : Agreement) (name : string) : Claims :=
  {| agid := ag_id ag; docName := Some name; role := "client"; directorIndex := None |}.

Definition directorClaims (ag : Agreement) (name : string) (idx : nat) : Claims :=
  {| agid := ag_id ag; docName := Some name; role := "director"; directorIndex := Some idx |}.

(** Lines 1041 to 1048: the slots of one document. *)
Definition newDirectorSlots (ag : Agreement) (d : Document) (directorEmails : list jsstring)
    (now : Z) : list DirectorSlot :=
  imap (λ idx email,
          {| ds_email := email;
             ds_directorSignToken := Some (jwt_sign (directorClaims ag (d_name d) idx) now);
             ds_signatureImagePath := None; ds_signature := None;
             ds_signed := false; ds_signedDate := None |})
       directorEmails.

(** Lines 1056 to 1079: one mail per director, with that director's link
    for every document and no attachment. *)
Definition directorMails (ag : Agreement) (directorEmails : list jsstring) : list Mail :=
  imap (λ i email,
          {| mail_to := Some email;
             mail_kind :=
               DirectorInviteMail
                 (map (λ d, (d_directors d !! i) ≫= ds_directorSignToken) (ag_documents ag));
             mail_attachments := [] |})
       directorEmails.

(** Lines 1024 to 1081, after the signed document has been saved. *)
Definition clientSign_next (E : Runtime) (w : World) (now : Z) (ag : Agreement)
  : Response * World :=
  match list_find (λ d, d_clientSigned d = false) (ag_documents ag) with
  | Some (j, nextDoc) =>
      let nextToken := jwt_sign (clientClaims ag (d_name nextDoc)) now in
      let ag1 := set_document ag j (set_clientSignToken nextDoc nextToken) in
      (reply 200 (NextDocToken nextToken), save w ag1)
  | None =>
      let directorEmails := getDirectorEmails E in
      let ag1 :=
        set_documents ag
          (map (λ d, set_directors d (newDirectorSlots ag d directorEmails now))
               (ag_documents ag)) in
      let ag2 := set_agClientSigned ag1 now in
      let w1 := save w ag2 in
      let w2 := foldl safeSendMail w1 (directorMails ag2 directorEmails) in
      (reply 200 Complete, w2)
  end.

(** Lines 999 to 1005: the base PDF of the client's stamp, regenerated
    when the draft is missing.  [doc] is [ag.documents[i]]. *)
Definition clientSign_heal (E : Runtime) (w : World) (now : Z) (ag : Agreement)
    (i : nat) (doc : Document) : Result (string * Agreement * World) :=
  if truthy (d_draftPdfPath doc) && existsSync w (default "" (d_draftPdfPath doc))
  then Ok (default "" (d_draftPdfPath doc), ag, w)
  else
    match ensureDraftExists E w now ag i doc with
    | Throw m => Throw m
    | Ok (inFile, ag1, w1) =>
        let doc1 := default doc (ag_documents ag1 !! i) in
        let ag2 := set_document ag1 i (set_draftPdfPath doc1 inFile) in
        Ok (inFile, ag2, save w1 ag2)
    end.

(** Lines 1007 to 1022, then the chain. *)
Definition clientSign_stamp (E : Runtime) (w : World) (now : Z) (ag : Agreement)
    (i : nat) (doc : Document) (template : Template) (signature : string)
    (coords : option Coords) (inFile : string) : Response * World :=
  let ts := replaceColonDot (nowIso now) in
  let safeBusiness :=
    ascii_string
      (safeFolderName (rt_normalizeNFKD E)
         (Some (orStr (getField (ag_data ag) "businessName") (js "Client")))) in
  let sigPath :=
    path_join (SIG_DIR E)
      ("client-sig-" +:+ d_name doc +:+ "-" +:+ safeBusiness +:+ "-" +:+ ts +:+ "-"
       +:+ pretty (ag_id ag) +:+ ".png") in
  let w1 := writeFileSync w sigPath DataFile in
  let outFile :=
    path_join (PDF_DIR E)
      ("client-" +:+ d_name doc +:+ "-" +:+ pretty (ag_id ag) +:+ "-" +:+ ts +:+ ".pdf") in
  match stampSignatureWithTime E w1 inFile signature (t_clientSig template) coords outFile
          "Client signed at" with
  | Throw m => (reply 500 (Message m), w1)
  | Ok (w2, _) =>
      let ag1 := set_document ag i (set_clientSignature doc sigPath outFile signature now) in
      clientSign_next E (save w2 ag1) now ag1
  end.

Definition clientSign (E : Runtime) (w : World) (now : Z) (req : SignRequest)
  : Response * World :=
  if negb (truthy (rq_signature req))
  then (reply 400 (Message "Missing signature"), w)
  else
    let signature := default "" (rq_signature req) in
    match jwt_verify (rq_token req) now with
    | Throw m => (reply 500 (Message m), w)
    | Ok decoded =>
        if negb (bool_decide (role decoded = "client"))
        then (reply 403 (Message "Wrong link"), w)
        else
          match agreements w !! agid decoded with
          | None => (reply 404 (Message "Agreement not found"), w)
          | Some ag =>
              match list_find (λ d, Some (d_name d) = docName decoded) (ag_documents ag) with
              | None => (reply 404 (Message "Document not found"), w)
              | Some (i, doc) =>
                  if d_clientSigned doc
                  then (reply 400 (Message "Document already signed"), w)
                  else
                    match findTemplate (d_name doc) with
                    | None =>
                        (reply 500 (Message ("Template not found for " +:+ d_name doc)), w)
                    | Some template =>
                        match clientSign_heal E w now ag i doc with
                        | Throw m => (reply 500 (Message m), w)
                        | Ok (inFile, ag1, w1) =>
                            clientSign_stamp E w1 now ag1 i
                              (default doc (ag_documents ag1 !! i)) template signature
                              (rq_coords req) inFile
                        end
                    end
              end
          end
    end.

(** *** POST /api/sign-director/:token *)

(** The predicate of [ag.documents.find] at lines 1156 to 1158. *)
Definition directorPending (directorIndex : nat) (d : Document) : bool :=
  d_clientSigned d &&
  match d_directors d !! directorIndex with
  | Some slot => negb (ds_signed slot)
  | None => false
  end.

(** The predicate of [ag.documents.every] at lines 1171 to 1173. *)
Definition directorsComplete (d : Document) : bool :=
  d_clientSigned d && negb (bool_decide (d_directors d = []))
  && forallb ds_signed (d_directors d).

Definition allDirectorsComplete (ag : Agreement) : bool :=
  forallb directorsComplete (ag_documents ag).

(** Lines 1176 to 1183: the final mail, with every final PDF attached. *)
Definition finalMail (ag : Agreement) : Mail :=
  {| mail_to := ag_data ag !! "email";
     mail_kind := FinalPackMail;
     mail_attachments := map d_finalSignedPdfPath (ag_documents ag) |}.

(** Lines 1153 to 1196, after the signed slot has been saved.  The two
    uploads to the archive change neither the store nor the response and
    are left out. *)
Definition directorSign_next (E : Runtime) (w : World) (now : Z) (ag : Agreement)
    (directorIndex : nat) : Response * World :=
  match list_find (λ d, directorPending directorIndex d = true) (ag_documents ag) with
  | Some (j, nextDoc) =>
      match d_directors nextDoc !! directorIndex with
      | None => (reply 500 (Message "Cannot read properties of undefined"), w)
      | Some slot =>
          if tokenTruthy (ds_directorSignToken slot)
          then (reply 200 (NextDocToken (default (OpaqueToken "") (ds_directorSignToken slot))),
                w)
          else
            let t1 := jwt_sign (directorClaims ag (d_name nextDoc) directorIndex) now in
            let nextDoc1 :=
              set_directors nextDoc
                (<[directorIndex := set_directorSignToken slot t1]> (d_directors nextDoc)) in
            let ag1 := set_document ag j nextDoc1 in
            (reply 200 (NextDocToken t1), save w ag1)
      end
  | None =>
      if allDirectorsComplete ag
      then
        let w1 := safeSendMail w (finalMail ag) in
        let ag1 := set_agDirectorSigned ag now in
        (reply 200 Complete, save w1 ag1)
      else (reply 200 Done, w)
  end.

(** Lines 1127 to 1151, then the chain.  [doc] is [ag.documents[i]] and
    [dstate] is [doc.directors[idx]]. *)
Definition directorSign_stamp (E : Runtime) (w : World) (now : Z) (ag : Agreement)
    (i : nat) (doc : Document) (idx : nat) (dstate : DirectorSlot) (sigSpec : Coords)
    (signature : string) (coords : option Coords) : Response * World :=
  let ts := replaceColonDot (nowIso now) in
  let safeBusiness :=
    ascii_string
      (safeFolderName (rt_normalizeNFKD E)
         (Some (orStr (getField (ag_data ag) "businessName") (js "Client")))) in
  let sigPath :=
    path_join (SIG_DIR E)
      ("director" +:+ pretty (idx + 1)%nat +:+ "-sig-" +:+ d_name doc +:+ "-"
       +:+ safeBusiness +:+ "-" +:+ ts +:+ "-" +:+ pretty (ag_id ag) +:+ ".png") in
  let w1 := writeFileSync w sigPath DataFile in
  (* lines 1134 to 1140 *)
  let basePdf :=
    if truthy (d_finalSignedPdfPath doc)
       && existsSync w1 (default "" (d_finalSignedPdfPath doc))
    then d_finalSignedPdfPath doc
    else d_clientSignedPdfPath doc in
  if negb (truthy basePdf && existsSync w1 (default "" basePdf))
  then (reply 500 (Message ("Base PDF missing for " +:+ d_name doc)), w1)
  else
    let outFile :=
      path_join (PDF_DIR E)
        ("final-" +:+ d_name doc +:+ "-d" +:+ pretty (idx + 1)%nat +:+ "-"
         +:+ pretty (ag_id ag) +:+ "-" +:+ ts +:+ ".pdf") in
    match stampSignatureWithTime E w1 (default "" basePdf) signature (Some sigSpec) coords
            outFile ("Director " +:+ pretty (idx + 1)%nat +:+ " signed at") with
    | Throw m => (reply 500 (Message m), w1)
    | Ok (w2, _) =>
        (* lines 1145 to 1150 *)
        let doc1 :=
          set_finalSignedPdfPath
            (set_directors doc
               (<[idx := set_directorSignature dstate sigPath signature now]>
                  (d_directors doc)))
            outFile in
        let ag1 := set_document ag i doc1 in
        directorSign_next E (save w2 ag1) now ag1 idx
    end.

Definition directorSign (E : Runtime) (w : World) (now : Z) (req : SignRequest)
  : Response * World :=
  if negb (truthy (rq_signature req))
  then (reply 400 (Message "Missing signature"), w)
  else
    let signature := default "" (rq_signature req) in
    match jwt_verify (rq_token req) now with
    | Throw m => (reply 500 (Message m), w)
    | Ok decoded =>
        if negb (bool_decide (role decoded = "director"))
        then (reply 403 (Message "Wrong link"), w)
        else
          let idx := default 0%nat (directorIndex decoded) in
          match agreements w !! agid decoded with
          | None => (reply 404 (Message "Agreement not found"), w)
          | Some ag =>
              match list_find (λ d, Some (d_name d) = docName decoded) (ag_documents ag) with
              | None => (reply 400 (Message "Invalid document token"), w)
              | Some (i, doc) =>
                  if negb (d_clientSigned doc)
                  then (reply 400 (Message "Client must sign first"), w)
                  else
                    match d_directors doc !! idx with
                    | None =>
                        (reply 400
                           (Message ("Director index " +:+ pretty idx
                                     +:+ " not configured for this document.")), w)
                    | Some dstate =>
                        if ds_signed dstate
                        then (reply 400 (Message "Document already signed by you"), w)
                        else
                          match getDirectorSigSpec (findTemplate (d_name doc)) idx with
                          | None =>
                              (reply 500
                                 (Message ("No signature coords for director #"
                                           +:+ pretty (idx + 1)%nat)), w)
                          | Some sigSpec =>
                              directorSign_stamp E w now ag i doc idx dstate sigSpec signature
                                (rq_coords req)
                          end
                    end
              end
          end
    end.

(** *** POST /api/save-pricing-summary *)

Definition savePricingSummary (w : World) (now : Z) (s : Summary) : Response * World :=
  match s_plan s with
  | Some {| plan_name := Some n; plan_price := Some _ |} =>
      if nonEmpty n
      then
        let s1 :=
          {| s_email := s_email s; s_service := s_service s; s_plan := s_plan s;
             s_addOns := s_addOns s; s_total := s_total s; s_createdAt := now |} in
        (reply 200 (Message "Pricing summary saved"),
         {| agreements := agreements w; summaries := summaries w ++ [s1]; files := files w;
            nextObjectId := nextObjectId w; outbox := outbox w |})
      else (reply 400 (Message "Invalid or missing plan data."), w)
  | _ => (reply 400 (Message "Invalid or missing plan data."), w)
  end.

(** *** POST /api/submit-agreement *)

(** [v && String(v).trim()] *)
Definition requiredField (payload : gmap string jsstring) (k : string) : bool :=
  match payload !! k with
  | Some v => nonEmpty v && nonEmpty (trim v)
  | None => false
  end.

(** The loop of lines 891 to 915 over the templates still to draft.  An
    exception leaves the drafts already written on disk. *)
Fixpoint draftDocuments (E : Runtime) (w : World) (now : Z) (id : nat)
    (payload : AgreementData) (summary : option Summary) (templates : list Template)
  : Result (list Document) * World :=
  match templates with
  | [] => (Ok [], w)
  | t :: rest =>
      let outDraft :=
        path_join (PDF_DIR E) ("draft-" +:+ t_name t +:+ "-" +:+ pretty now +:+ ".pdf") in
      let templatePath := path_join (PDF_TEMPLATES_DIR E) (t_path t) in
      if negb (existsSync w templatePath)
      then (Throw ("Template file missing: " +:+ t_path t), w)
      else
        let input := buildTemplateInput E now (t_name t) payload summary in
        match drawFieldsOnPdf E w templatePath (t_fieldMap t) input outDraft with
        | Throw m => (Throw m, w)
        | Ok w1 =>
            let clientSignToken :=
              jwt_sign {| agid := id; docName := Some (t_name t); role := "client";
                          directorIndex := None |} now in
            let doc :=
              {| d_name := t_name t; d_draftPdfPath := Some outDraft;
                 d_clientSignedPdfPath := None; d_finalSignedPdfPath := None;
                 d_clientSignatureImagePath := None;
                 d_clientSignToken := Some clientSignToken; d_clientSigned := false;
                 d_clientSignedDate := None; d_clientSignature := None;
                 d_directors := [] |} in
            match draftDocuments E w1 now id payload summary rest with
            | (Ok docs, w2) => (Ok (doc :: docs), w2)
            | (Throw m, w2) => (Throw m, w2)
            end
        end
  end.

(** [payload] is the object built at lines 851 to 884 from the request
    body; its date is the time of the request. *)
Definition submitAgreement (E : Runtime) (w : World) (now : Z) (payload : gmap string jsstring)
  : Response * World :=
  if negb (forallb (requiredField payload) ["businessName"; "clientFullName"; "email"; "phone"])
  then (reply 400
          (Message "Missing required fields (businessName, clientFullName, email, phone)."), w)
  else
    let id := nextObjectId w in
    let w0 :=
      {| agreements := agreements w; summaries := summaries w; files := files w;
         nextObjectId := S id; outbox := outbox w |} in
    let summary := latestSummary w0 (payload !! "email") in
    let data := {| ad_fields := payload; ad_submittedAt := Some now |} in
    match draftDocuments E w0 now id data summary TEMPLATES with
    | (Throw _, w1) => (reply 500 (Message "Failed to save and send agreement."), w1)
    | (Ok documents, w1) =>
        let newAgreement :=
          {| ag_id := id; ag_data := payload; ag_submittedAt := now;
             ag_documents := documents;
             ag_clientSignToken := head documents ≫= d_clientSignToken;
             ag_clientSigned := false; ag_directorSigned := false;
             ag_clientSignedDate := None; ag_directorSignedDate := None |} in
        let w2 := save w1 newAgreement in
        let mail :=
          {| mail_to := payload !! "email";
             mail_kind := DraftPackMail (omap d_clientSignToken documents);
             mail_attachments := map d_draftPdfPath documents |} in
        (reply 200 (Message "Agreement saved, drafts generated."), safeSendMail w2 mail)
    end.

(** ** The server as a transition system

    The events are the requests that read or write agreements and
    summaries.  The remaining routes (client login, session header,
    debug and health checks) touch neither. *)

Inductive Event :=
| SubmitAgreement (payload : gmap string jsstring)
| SavePricingSummary (s : Summary)
| Preview (token : Token)
| ClientSign (req : SignRequest)
| DirectorSign (req : SignRequest).

Definition handle (E : Runtime) (w : World) (now : Z) (e : Event) : Response * World :=
  match e with
  | SubmitAgreement payload => submitAgreement E w now payload
  | SavePricingSummary s => savePricingSummary w now s
  | Preview token => previewPdf E w now token
  | ClientSign req => clientSign E w now req
  | DirectorSign req => directorSign E w now req
  end.

(** The worlds the server can be in: it boots with an empty store on any
    file system, serves requests at any times, and between requests
    files may appear or vanish (the disk is ephemeral). *)
Inductive reachable (E : Runtime) : World → Prop :=
| reachable_boot fs :
    reachable E {| agreements := ∅; summaries := []; files := fs;
                   nextObjectId := 0; outbox := [] |}
| reachable_request w now e :
    reachable E w → reachable E (handle E w now e).2
| reachable_disk w fs :
    reachable E w → reachable E (set_files w fs).

(** What a run observes. *)

Definition drawnSize (r : Result (World * StampDraw)) : option (Z * Z) :=
  match r with
  | Ok (_, draw) => Some (sd_width draw, sd_height draw)
  | Throw _ => None
  end.

(** ** A concrete deployment

    A disk holding the four template files (four A4 pages each), the host
    [hostUTC], and one client going through the signing chain.  These
    runs are used to evaluate the routes on concrete requests. *)

Definition A4 : PageSize := {| pageWidth := 595; pageHeight := 842 |}.

Definition templateDisk : gmap string FileData :=
  list_to_map
    (map (λ t, (path_join (PDF_TEMPLATES_DIR hostUTC) (t_path t), PdfFile [A4; A4; A4; A4] []))
         TEMPLATES).

Definition bootWorld : World :=
  {| agreements := ∅; summaries := []; files := templateDisk; nextObjectId := 0;
     outbox := [] |}.

Definition acmePayload : gmap string jsstring :=
  {[ "businessName" := js "Acme Pty Ltd"; "clientFullName" := js "Ada Client";
     "email" := js "ada@acme.example"; "phone" := js "0400 000 000" ]}.

(** 2024-01-02T15:04:05.123Z and the following minutes. *)
Definition T0 : Z := 1704207845123.
Definition minutes (n : Z) : Z := T0 + n * 60000.

Definition clientToken (name : string) : Token :=
  jwt_sign {| agid := 0; docName := Some name; role := "client"; directorIndex := None |} T0.

Definition directorToken (name : string) (idx : nat) (now : Z) : Token :=
  jwt_sign {| agid := 0; docName := Some name; role := "director";
              directorIndex := Some idx |} now.

Definition signWith (t : Token) : SignRequest :=
  {| rq_token := t; rq_signature := Some "data:image/png;base64,iVBORw0KGgo=";
     rq_coords := None |}.

Definition run (w : World) (now : Z) (e : Event) : World := (handle hostUTC w now e).2.

Definition submitted : World := run bootWorld T0 (SubmitAgreement acmePayload).

Definition signed1 : World :=
  run submitted (minutes 1) (ClientSign (signWith (clientToken "ServiceAgreement"))).

Definition signed4 : World :=
  let w := run signed1 (minutes 2) (ClientSign (signWith (clientToken "CustomerInformation"))) in
  let w := run w (minutes 3) (ClientSign (signWith (clientToken "PricingSchedule"))) in
  run w (minutes 4) (ClientSign (signWith (clientToken "ConfidentialityAgreement"))).

Definition countersigned1 : World :=
  run signed4 (minutes 5)
      (DirectorSign (signWith (directorToken "ServiceAgreement" 0 (minutes 4)))).


Definition acmeData : AgreementData :=
  {| ad_fields := acmePayload; ad_submittedAt := Some T0 |}.

(** The disk after the draft of the service agreement has been lost. *)
Definition lostDraft : World :=
  set_files submitted
            (delete "/app/pdfs/draft-ServiceAgreement-1704207845123.pdf" (files submitted)).

(** The agreement stored under [id], and its [i]-th document. *)
Definition documentOf (w : World) (id i : nat) : option Document :=
  agreements w !! id ≫= λ ag, ag_documents ag !! i.

Definition draftPathOf (w : World) (id i : nat) : option string :=
  documentOf w id i ≫= d_draftPdfPath.


Definition emptyDocument : Document :=
  {| d_name := ""; d_draftPdfPath := None; d_clientSignedPdfPath := None;
     d_finalSignedPdfPath := None; d_clientSignatureImagePath := None;
     d_clientSignToken := None; d_clientSigned := false; d_clientSignedDate := None;
     d_clientSignature := None; d_directors := [] |}.

Definition emptyAgreement : Agreement :=
  {| ag_id := 0; ag_data := ∅; ag_submittedAt := 0; ag_documents := [];
     ag_clientSignToken := None; ag_clientSigned := false; ag_directorSigned := false;
     ag_clientSignedDate := None; ag_directorSignedDate := None |}.

(** The agreement of the Acme client in a world of the run, and its
    documents. *)
Definition acmeAgreement (w : World) : Agreement :=
  default emptyAgreement (agreements w !! 0%nat).

Definition acmeDocument (w : World) (i : nat) : Document :=
  default emptyDocument (ag_documents (acmeAgreement w) !! i).

Definition acmeSlot (w : World) (i idx : nat) : DirectorSlot :=
  default {| ds_email := []; ds_directorSignToken := None; ds_signatureImagePath := None;
             ds_signature := None; ds_signed := false; ds_signedDate := None |}
          (d_directors (acmeDocument w i) !! idx).

(** ** Aggregate flags *)

(** A document's director slots are complete: the list is not empty and
    every slot is signed. *)
Definition slotsComplete (d : Document) : bool :=
  negb (bool_decide (d_directors d = [])) && forallb ds_signed (d_directors d).

(** The aggregate flags of an agreement agree with its documents, and no
    document has director slots while the client is still signing. *)
Record flagsConsistent (ag : Agreement) : Prop := {
  fc_documents : ag_documents ag ≠ [];
  fc_client : ag_clientSigned ag = forallb d_clientSigned (ag_documents ag);
  fc_director : ag_directorSigned ag = forallb slotsComplete (ag_documents ag);
  fc_slots : ag_clientSigned ag = false →
             Forall (λ d, d_directors d = []) (ag_documents ag)
}.

(** An agreement whose client has not finished. *)
Record clientPhase (ag : Agreement) : Prop := {
  cp_documents : ag_documents ag ≠ [];
  cp_client : ag_clientSigned ag = false;
  cp_director : ag_directorSigned ag = false;
  cp_slots : Forall (λ d, d_directors d = []) (ag_documents ag)
}.

(** An agreement whose client has finished and whose directors have not. *)
Record directorPhase (ag : Agreement) : Prop := {
  dp_documents : ag_documents ag ≠ [];
  dp_client : ag_clientSigned ag = true;
  dp_signed : forallb d_clientSigned (ag_documents ag) = true;
  dp_director : ag_directorSigned ag = false
}.

(** Every agreement is stored under its own id and has consistent
    flags. *)
Definition storeConsistent (w : World) : Prop :=
  ∀ k ag, agreements w !! k = Some ag → ag_id ag = k ∧ flagsConsistent ag.

Definition storeConsistentExcept (id : nat) (w : World) : Prop :=
  ∀ k ag, k ≠ id → agreements w !! k = Some ag → ag_id ag = k ∧ flagsConsistent ag.

(** The documents of [l'] are those of [l], position by position, with
    the same names and no client signature lost. *)
Definition docsExtend (l l' : list Document) : Prop :=
  ∀ i d, l !! i = Some d →
         ∃ d', l' !! i = Some d' ∧ d_name d' = d_name d
               ∧ (d_clientSigned d = true → d_clientSigned d' = true).

(** The slots of [l'] are those of [l], position by position, with no
    signature lost; and likewise for documents with their slots. *)
Definition slotsKeep (l l' : list DirectorSlot) : Prop :=
  ∀ k s, l !! k = Some s → ∃ s', l' !! k = Some s' ∧ (ds_signed s = true → ds_signed s' = true).

Definition docsKeep (l l' : list Document) : Prop :=
  ∀ i d, l !! i = Some d →
         ∃ d', l' !! i = Some d' ∧ d_name d' = d_name d
               ∧ (d_clientSigned d = true → d_clientSigned d' = true)
               ∧ slotsKeep (d_directors d) (d_directors d').

(** * Properties *)

(** ** Text utilities *)

Lemma folderChar_not_space_class c :
  folderChar c = true → isSpace c = true → c = SPACE.
Proof.
  unfold folderChar, isWord, isSpace, HYPHEN, SPACE. intros H1 H2.
  repeat (apply orb_prop in H1 as [H1|H1] || apply andb_prop in H1 as [H1 ?]);
  repeat (apply orb_prop in H2 as [H2|H2] || apply andb_prop in H2 as [H2 ?]);
  repeat match goal with
         | H : (_ <=? _)%N = true |- _ => apply N.leb_le in H
         | H : (_ =? _)%N = true |- _ => apply N.eqb_eq in H
         end; lia.
Qed.

Lemma folderChar_not_dot c : folderChar c = true → isDotOrHash c = false ∧ isDot c = false.
Proof.
  unfold folderChar, isWord, isDotOrHash, isDot, HYPHEN, SPACE, DOT, HASH. intros H1.
  repeat (apply orb_prop in H1 as [H1|H1] || apply andb_prop in H1 as [H1 ?]);
  repeat match goal with
         | H : (_ <=? _)%N = true |- _ => apply N.leb_le in H
         | H : (_ =? _)%N = true |- _ => apply N.eqb_eq in H
         end;
  split; try apply orb_false_intro; apply N.eqb_neq; lia.
Qed.

Lemma Forall_dropWhile (P : N → Prop) p s : Forall P s → Forall P (dropWhile p s).
Proof.
  induction 1 as [|c s Hc Hs IH]; simpl; [constructor|].
  destruct (p c); [exact IH | by constructor].
Qed.

Lemma Forall_stripEnd (P : N → Prop) p s : Forall P s → Forall P (stripEnd p s).
Proof.
  intros H. unfold stripEnd. apply Forall_rev, Forall_dropWhile, Forall_rev, H.
Qed.

Lemma Forall_trim (P : N → Prop) s : Forall P s → Forall P (trim s).
Proof. intros H. by apply Forall_stripEnd, Forall_dropWhile. Qed.

Lemma length_dropWhile p s : (length (dropWhile p s) ≤ length s)%nat.
Proof. induction s as [|c s IH]; simpl; [lia|]. destruct (p c); simpl; lia. Qed.

Lemma length_trim s : (length (trim s) ≤ length s)%nat.
Proof.
  unfold trim, stripEnd, stripStart. rewrite length_rev.
  etrans; [apply length_dropWhile|]. rewrite length_rev. apply length_dropWhile.
Qed.

Lemma dropWhile_head p s c s' : dropWhile p s = c :: s' → p c = false.
Proof.
  induction s as [|d s IH]; simpl; [done|].
  destruct (p d) eqn:E; [exact IH|]. by intros [= -> ->].
Qed.

Lemma dropWhile_snoc p s c : p c = false → dropWhile p (s ++ [c]) = dropWhile p s ++ [c].
Proof.
  intros Hc. induction s as [|d s IH]; simpl; [by rewrite Hc|].
  destruct (p d); [exact IH | done].
Qed.

Lemma stripEnd_cons p c s : p c = false → stripEnd p (c :: s) = c :: stripEnd p s.
Proof.
  intros Hc. unfold stripEnd. simpl. rewrite dropWhile_snoc by done.
  by rewrite rev_app_distr.
Qed.

Lemma dropWhile_id p s : Forall (λ c, p c = false) s → dropWhile p s = s.
Proof. destruct 1 as [|c s Hc Hs]; simpl; [done|]. by rewrite Hc. Qed.

Lemma stripEnd_id p s : Forall (λ c, p c = false) s → stripEnd p s = s.
Proof.
  intros H. unfold stripEnd. rewrite dropWhile_id; [apply rev_involutive|].
  by apply Forall_rev.
Qed.

(** The head of a trimmed string is not white space. *)
Lemma trim_head s c s' : trim s = c :: s' → isSpace c = false.
Proof.
  unfold trim, stripStart. destruct (dropWhile isSpace s) as [|d t] eqn:E.
  - by cbv.
  - pose proof (dropWhile_head _ _ _ _ E) as Hd.
    rewrite stripEnd_cons by done. by intros [= <- _].
Qed.

Lemma trim_cons c s : isSpace c = false → trim (c :: s) = c :: stripEnd isSpace s.
Proof.
  intros Hc. unfold trim, stripStart. simpl. rewrite Hc. by apply stripEnd_cons.
Qed.

Lemma Forall_collapse_go (P : N → Prop) b s :
  P SPACE → Forall P s → Forall P (collapse_go b s).
Proof.
  intros Hsp H. revert b. induction H as [|c s Hc Hs IH]; intros b; simpl; [constructor|].
  destruct (isSpace c); [destruct b|]; auto.
Qed.

Lemma Forall_replaceNonWord s : Forall (λ c, folderChar c = true) (replaceNonWord s).
Proof.
  unfold replaceNonWord. apply Forall_forall. intros c Hc.
  apply list_elem_of_fmap in Hc as (d & -> & _).
  unfold folderChar. destruct (isWord d || (d =? HYPHEN)%N) eqn:E.
  - by rewrite E.
  - reflexivity.
Qed.

Section SafeFolderNameFacts.

Variable normalizeNFKD : jsstring → jsstring.

Lemma safeFolderName_trimmed_chars name0 :
  Forall (λ c, folderChar c = true)
         (trim (collapseSpaces (replaceNonWord (normalizeNFKD name0)))).
Proof.
  apply Forall_trim, Forall_collapse_go; [reflexivity|]. apply Forall_replaceNonWord.
Qed.

(** No dot or hash survives the replacement of non-word units, so the
    two strip steps of line 294 leave the string as it is. *)
Lemma safeFolderName_clean_eq name :
  ∃ name0, safeFolderName_clean normalizeNFKD name =
           trim (collapseSpaces (replaceNonWord (normalizeNFKD name0))).
Proof.
  unfold safeFolderName_clean.
  set (name0 := match name with Some n => if nonEmpty n then n else js "Client"
                           | None => js "Client" end).
  exists name0.
  pose proof (safeFolderName_trimmed_chars name0) as H.
  rewrite (stripEnd_id isDotOrHash).
  - unfold stripStart. apply dropWhile_id.
    eapply Forall_impl; [exact H|]. intros c Hc. by apply folderChar_not_dot.
  - eapply Forall_impl; [exact H|]. intros c Hc. by apply folderChar_not_dot.
Qed.

Lemma safeFolderName_clean_chars name :
  Forall (λ c, folderChar c = true) (safeFolderName_clean normalizeNFKD name).
Proof.
  destruct (safeFolderName_clean_eq name) as [n0 ->]. apply safeFolderName_trimmed_chars.
Qed.

Lemma safeFolderName_clean_head name c s :
  safeFolderName_clean normalizeNFKD name = c :: s → isSpace c = false.
Proof.
  destruct (safeFolderName_clean_eq name) as [n0 ->]. apply trim_head.
Qed.

Lemma safeFolderName_chars name :
  Forall (λ c, folderChar c = true) (safeFolderName normalizeNFKD name).
Proof.
  unfold safeFolderName.
  set (s := safeFolderName_clean normalizeNFKD name).
  assert (Hs : Forall (λ c, folderChar c = true) s) by apply safeFolderName_clean_chars.
  assert (Hc : Forall (λ c, folderChar c = true) (js "Client"))
    by (vm_compute; repeat constructor).
  destruct (negb (nonEmpty s) || jsstring_eqb (toLowerCase s) (js "forms"));
    case_match; try apply Forall_trim, Forall_take; done.
Qed.

End SafeFolderNameFacts.

(** ** Archival folder names *)

Lemma head_folderChar_not_dot (s : jsstring) :
  Forall (λ c, folderChar c = true) s → head s ≠ Some DOT.
Proof.
  destruct 1 as [|c s Hc _]; simpl; [done|].
  intros [= ->]. by vm_compute in Hc.
Qed.

Lemma last_folderChar_not_dot_hash (s : jsstring) :
  Forall (λ c, folderChar c = true) s → last s ≠ Some DOT ∧ last s ≠ Some HASH.
Proof.
  intros H. destruct (last s) as [c|] eqn:E; [|done].
  assert (folderChar c = true) as Hc.
  { eapply (proj1 (Forall_forall _ _) H). apply last_Some in E as [l' ->].
    apply elem_of_app. right. by apply list_elem_of_singleton. }
  split; intros [= ->]; by vm_compute in Hc.
Qed.

(** C10. For every input (missing and empty included) and every
    normalisation built-in, [safeFolderName] returns a non-empty string of
    at most 100 units that does not start with a dot and does not end
    with a dot or a hash; and when the cleaned input is empty or is
    ["forms"] up to case, the result is ["Client"]. *)
Theorem safeFolderName_spec (normalizeNFKD : jsstring → jsstring) (name : option jsstring) :
  let r := safeFolderName normalizeNFKD name in
  r ≠ [] ∧ (length r ≤ 100)%nat
  ∧ head r ≠ Some DOT ∧ last r ≠ Some DOT ∧ last r ≠ Some HASH
  ∧ (safeFolderName_clean normalizeNFKD name = []
     ∨ toLowerCase (safeFolderName_clean normalizeNFKD name) = js "forms"
     → r = js "Client").
Proof.
  intros r.
  pose proof (safeFolderName_chars normalizeNFKD name) as Hchars. fold r in Hchars.
  pose proof (last_folderChar_not_dot_hash r Hchars) as [Hd Hh].
  pose proof (head_folderChar_not_dot r Hchars) as Hhd.
  assert (Hfallback :
            safeFolderName_clean normalizeNFKD name = []
            ∨ toLowerCase (safeFolderName_clean normalizeNFKD name) = js "forms"
            → r = js "Client").
  { intros Hc. subst r. unfold safeFolderName.
    destruct Hc as [-> | Hf]; [reflexivity|].
    rewrite Hf. unfold jsstring_eqb. rewrite bool_decide_eq_true_2 by done.
    by rewrite orb_true_r. }
  repeat split; try done.
  - (* non-empty *)
    subst r. unfold safeFolderName.
    set (s := safeFolderName_clean normalizeNFKD name).
    pose proof (safeFolderName_clean_head normalizeNFKD name) as Hhead. fold s in Hhead.
    set (s2 := if negb (nonEmpty s) || jsstring_eqb (toLowerCase s) (js "forms")
               then js "Client" else s).
    assert (Hs2 : ∃ c t, s2 = c :: t ∧ isSpace c = false).
    { subst s2. destruct s as [|c t]; simpl.
      - eexists _, _. split; [reflexivity|]. reflexivity.
      - destruct (jsstring_eqb _ _).
        + eexists _, _. split; [reflexivity|]. reflexivity.
        + exists c, t. split; [done|]. by eapply Hhead. }
    destruct Hs2 as (c & t & -> & Hc).
    case_match; [|done]. simpl. by rewrite trim_cons.
  - (* at most 100 units *)
    subst r. unfold safeFolderName.
    match goal with
    | |- context [if ?b then js "Client" else ?s] =>
        set (s2 := if b then js "Client" else s)
    end.
    destruct (100 <? length s2)%nat eqn:E.
    + etrans; [apply length_trim|]. rewrite length_take. lia.
    + apply Nat.ltb_ge in E. lia.
Qed.

(** The result holds no dot and no hash at all, and no unit outside
    [[A-Za-z0-9_ -]]. *)
Lemma safeFolderName_charset (normalizeNFKD : jsstring → jsstring) (name : option jsstring) c :
  c ∈ safeFolderName normalizeNFKD name → folderChar c = true.
Proof.
  intros Hc. by eapply (proj1 (Forall_forall _ _) (safeFolderName_chars normalizeNFKD name)).
Qed.

Lemma safeFolderName_spec_witness :
  safeFolderName (λ s, s) (Some (js "FoRmS  ")) = js "Client".
Proof.
  apply (safeFolderName_spec (λ s, s) (Some (js "FoRmS  "))).
  right. reflexivity.
Defined.

Example safeFolderName_acme :
  safeFolderName (λ s, s) (Some (js "  Acme. Pty#Ltd.. ")) = js "Acme Pty Ltd".
Proof. reflexivity. Qed.

(** ** Coordinate resolver *)

Lemma getPage_in_range (pdf : PdfDoc) (idx : Z) :
  0 ≤ idx < getPageCount pdf → ∃ p, getPage pdf idx = Some p.
Proof.
  unfold getPage, getPageCount. intros [H0 H1].
  rewrite (proj2 (Z.leb_le 0 idx)) by done.
  destruct (pdf !! Z.to_nat idx) as [p|] eqn:E; [eauto|].
  apply lookup_ge_None in E. lia.
Qed.

Lemma getSafePage_index (pdf : PdfDoc) (wanted : option PageSel) (idx : Z) :
  0 ≤ idx < getPageCount pdf →
  idx = match wanted with
        | Some PageLast => getPageCount pdf - 1
        | Some (PageNum n) => Z.min (Z.max 0 (orNum (Some n) 1 - 1)) (getPageCount pdf - 1)
        | None => Z.min (Z.max 0 (orNum None 1 - 1)) (getPageCount pdf - 1)
        end →
  sp_index <$> getSafePage pdf wanted = Some idx.
Proof.
  intros Hr Hidx. unfold getSafePage. cbv zeta. rewrite <- Hidx.
  destruct (getPage_in_range pdf idx Hr) as [p ->]. reflexivity.
Qed.

(** C7. On a PDF with at least one page, [getSafePage] resolves a wanted
    page number [n] to index [n - 1] when [1 <= n <= pageCount], to
    index 0 when [n < 1], and to index [pageCount - 1] when
    [n > pageCount]; the sentinel ['last'] resolves to [pageCount - 1]. *)
Theorem getSafePage_clamps (pdf : PdfDoc) (n : Z) :
  1 ≤ getPageCount pdf →
  (1 ≤ n ≤ getPageCount pdf → sp_index <$> getSafePage pdf (Some (PageNum n)) = Some (n - 1))
  ∧ (n < 1 → sp_index <$> getSafePage pdf (Some (PageNum n)) = Some 0)
  ∧ (getPageCount pdf < n →
     sp_index <$> getSafePage pdf (Some (PageNum n)) = Some (getPageCount pdf - 1))
  ∧ sp_index <$> getSafePage pdf (Some PageLast) = Some (getPageCount pdf - 1).
Proof.
  intros Hc. repeat split; intros; apply getSafePage_index; try lia;
    unfold orNum; destruct (n =? 0) eqn:E; try apply Z.eqb_eq in E; lia.
Qed.

Lemma getSafePage_clamps_witness :
  sp_index <$> getSafePage [A4; A4; A4; A4] (Some (PageNum 6)) = Some 3.
Proof.
  destruct (getSafePage_clamps [A4; A4; A4; A4] 6) as (_ & _ & H & _).
  - vm_compute. discriminate.
  - apply H. reflexivity.
Defined.

(** The resolved index is the index of a page: the page returned is the
    page at that index. *)
Lemma getSafePage_page (pdf : PdfDoc) (wanted : option PageSel) (sp : SafePage) :
  getSafePage pdf wanted = Some sp →
  0 ≤ sp_index sp < getPageCount pdf ∧ pdf !! Z.to_nat (sp_index sp) = Some (sp_page sp).
Proof.
  unfold getSafePage. cbv zeta.
  set (idx := match wanted with Some PageLast => _ | Some (PageNum n) => _ | None => _ end).
  unfold getPage. destruct (0 <=? idx) eqn:E0; [|done].
  destruct (pdf !! Z.to_nat idx) as [p|] eqn:Ep; [|done].
  intros [= <-]. simpl. apply Z.leb_le in E0. pose proof (lookup_lt_Some _ _ _ Ep).
  unfold getPageCount. split; [lia | exact Ep].
Qed.

(** ** Signature stamper *)

Lemma orNum_nonzero (v : option Z) (d : Z) : d ≠ 0 → orNum v d ≠ 0.
Proof.
  intros Hd. unfold orNum. destruct v as [n|]; [|done].
  destruct (n =? 0) eqn:E; [done|]. by apply Z.eqb_neq in E.
Qed.

(** The resolver never returns a width or height below 1, so the
    fall-back of lines 380 and 381 to the image's own size is never
    taken. *)
Lemma stampPlacement_size (pdf : PdfDoc) (png : PngImage) (tc oc : option Coords)
    (label : string) (draw : StampDraw) :
  stampPlacement pdf png tc oc label = Some draw →
  sd_width draw = Z.max 1 (orNum (c_width (mergeCoords tc oc)) 150)
  ∧ sd_height draw = Z.max 1 (orNum (c_height (mergeCoords tc oc)) 50).
Proof.
  unfold stampPlacement, resolveSignatureCoords. cbv zeta.
  destruct (getSafePage pdf (Some _)) as [p|]; [|done]. cbn [rc_page].
  destruct (getSafePage pdf (Some _)) as [p'|]; [|done].
  intros [= <-]. cbn [sd_width sd_height rc_width rc_height].
  unfold orNum at 1 3.
  split; (destruct (Z.max 1 _ =? 0) eqn:E; [apply Z.eqb_eq in E; lia | done]).
Qed.

(** C6 (amended). When neither the template anchor nor the override
    gives a width or a height, a stamp that succeeds draws the image
    150 wide and 50 high: the defaults of the coordinate resolver, not
    the image's own size. *)
Theorem stamp_default_size (E : Runtime) (w w' : World) (inPath signature : string)
    (tc oc : option Coords) (outPath label : string) (draw : StampDraw) :
  tc ≫= c_width = None → oc ≫= c_width = None →
  tc ≫= c_height = None → oc ≫= c_height = None →
  stampSignatureWithTime E w inPath signature tc oc outPath label = Ok (w', draw) →
  sd_width draw = 150 ∧ sd_height draw = 50.
Proof.
  intros Htw How Hth Hoh. unfold stampSignatureWithTime.
  destruct (files w !! inPath) as [[pdf marks|]|]; try done.
  destruct (resolveSignatureCoords pdf tc oc); [|done].
  destruct (rt_embedPng E signature) as [png|]; [|done].
  destruct (stampPlacement pdf png tc oc label) as [d|] eqn:Ed; [|done].
  intros [= _ <-]. apply stampPlacement_size in Ed as [-> ->].
  assert (c_width (mergeCoords tc oc) = None) as ->.
  { unfold mergeCoords. simpl. destruct tc, oc; simpl in *; by rewrite ?How, ?Htw. }
  assert (c_height (mergeCoords tc oc) = None) as ->.
  { unfold mergeCoords. simpl. destruct tc, oc; simpl in *; by rewrite ?Hoh, ?Hth. }
  done.
Qed.

Example stamp_draft_run :
  drawnSize (stampSignatureWithTime hostUTC submitted
               "/app/pdfs/draft-ServiceAgreement-1704207845123.pdf"
               "data:image/png;base64,iVBORw0KGgo=" None None "/app/pdfs/out.pdf"
               "Signed at")
  = Some (150, 50).
Proof. vm_compute. reflexivity. Qed.

(** C6, as stated, fails: a 300 by 120 pixel signature stamped on the
    draft of the service agreement with no anchor and no override is drawn
    150 by 50. *)
Lemma stamp_native_size_counterexample :
  drawnSize (stampSignatureWithTime hostUTC submitted
               "/app/pdfs/draft-ServiceAgreement-1704207845123.pdf"
               "data:image/png;base64,iVBORw0KGgo=" None None "/app/pdfs/out.pdf"
               "Signed at")
  = Some (150, 50)
  ∧ (λ png, (png_width png, png_height png))
      <$> rt_embedPng hostUTC "data:image/png;base64,iVBORw0KGgo="
    = Some (300, 120)
  ∧ drawnSize (stampSignatureWithTime hostUTC submitted
                 "/app/pdfs/draft-ServiceAgreement-1704207845123.pdf"
                 "data:image/png;base64,iVBORw0KGgo=" None None "/app/pdfs/out.pdf"
                 "Signed at")
    ≠ (λ png, (png_width png, png_height png))
        <$> rt_embedPng hostUTC "data:image/png;base64,iVBORw0KGgo=".
Proof.
  split; [vm_compute; reflexivity|]. split; [vm_compute; reflexivity|].
  rewrite stamp_draft_run. vm_compute. discriminate.
Qed.

Lemma stamp_default_size_witness :
  match stampSignatureWithTime hostUTC submitted
          "/app/pdfs/draft-ServiceAgreement-1704207845123.pdf"
          "data:image/png;base64,iVBORw0KGgo=" None None "/app/pdfs/out.pdf" "Signed at"
  with
  | Ok (_, draw) => sd_width draw = 150 ∧ sd_height draw = 50
  | Throw _ => False
  end.
Proof.
  pose proof stamp_draft_run as Hok.
  destruct (stampSignatureWithTime hostUTC submitted _ _ None None _ _)
    as [[w' draw]|m] eqn:Hrun.
  - exact (stamp_default_size hostUTC submitted w' _ _ None None _ _ draw
             eq_refl eq_refl eq_refl eq_refl Hrun).
  - discriminate Hok.
Defined.

(** ** Word wrapping *)

Lemma split_go_noSpace b cur w : noSpace w → split_go b cur w = [cur ++ w].
Proof.
  intros H. revert b cur. induction H as [|c w Hc Hw IH]; intros b cur; simpl.
  - by rewrite app_nil_r.
  - rewrite Hc, IH. by rewrite <- app_assoc.
Qed.

Lemma split_go_pieces b cur s :
  noSpace cur → Forall noSpace (split_go b cur s).
Proof.
  revert b cur. induction s as [|c s IH]; intros b cur Hcur; simpl.
  - by repeat constructor.
  - destruct (isSpace c) eqn:Ec.
    + destruct b; [|constructor; [done|]]; apply IH; constructor.
    + apply IH. apply Forall_app. split; [done|]. by repeat constructor.
Qed.

Lemma splitSpaces_pieces s : Forall noSpace (splitSpaces s).
Proof. apply split_go_pieces. constructor. Qed.

Lemma nonEmptyPieces_cons w ws :
  nonEmptyPieces (w :: ws) = (if decide (w ≠ []) then [w] else []) ++ nonEmptyPieces ws.
Proof. unfold nonEmptyPieces. rewrite filter_cons. repeat case_decide; done. Qed.

Lemma nonEmptyPieces_nil_cons ws : nonEmptyPieces ([] :: ws) = nonEmptyPieces ws.
Proof. rewrite nonEmptyPieces_cons. by case_decide. Qed.

Lemma split_go_flag s :
  nonEmptyPieces (split_go true [] s) = nonEmptyPieces (split_go false [] s).
Proof.
  destruct s as [|c s]; simpl; [done|].
  destruct (isSpace c); [|done]. by rewrite nonEmptyPieces_nil_cons.
Qed.

Lemma split_go_app_space b cur a sp rest :
  isSpace sp = true → (b = true → cur = []) →
  nonEmptyPieces (split_go b cur (a ++ sp :: rest))
  = nonEmptyPieces (split_go b cur a) ++ nonEmptyPieces (split_go false [] rest).
Proof.
  intros Hsp. revert b cur. induction a as [|c a IH]; intros b cur Hb; simpl.
  - rewrite Hsp. destruct b.
    + rewrite (Hb eq_refl), nonEmptyPieces_nil_cons. simpl. apply split_go_flag.
    + rewrite !nonEmptyPieces_cons, split_go_flag. by rewrite app_nil_r.
  - destruct (isSpace c).
    + destruct b.
      * by apply IH.
      * rewrite !nonEmptyPieces_cons, IH by done. by rewrite app_assoc.
    + by apply IH.
Qed.

Lemma wordsOf_app_space a sp w :
  isSpace sp = true → wordsOf (a ++ sp :: w) = wordsOf a ++ wordsOf w.
Proof. intros Hsp. unfold wordsOf, splitSpaces. by apply split_go_app_space. Qed.

Lemma wordsOf_piece w : noSpace w → wordsOf w = nonEmptyPieces [w].
Proof. intros H. unfold wordsOf, splitSpaces. by rewrite split_go_noSpace. Qed.

Lemma wordsOf_nil : wordsOf [] = [].
Proof. reflexivity. Qed.

Lemma wordsOf_pieces ws :
  Forall noSpace ws → concat (map wordsOf ws) = nonEmptyPieces ws.
Proof.
  induction 1 as [|w ws Hw Hws IH]; simpl; [done|].
  rewrite IH, (wordsOf_piece w Hw), !nonEmptyPieces_cons. by rewrite app_nil_r.
Qed.

Lemma nonEmpty_true (l : jsstring) : nonEmpty l = true ↔ l ≠ [].
Proof. destruct l; simpl; split; (done || by intros; try discriminate). Qed.

Lemma nonEmpty_false (l : jsstring) : nonEmpty l = false ↔ l = [].
Proof. destruct l; simpl; split; (done || by intros; try discriminate). Qed.

Section WrapLinesFacts.

Variable widthOfTextAtSize : jsstring → Q → Q.
Variable size maxWidth : Q.
Variable text : jsstring.

Lemma wrapStep_words lines line w lines' line' :
  noSpace w →
  wrapStep widthOfTextAtSize size maxWidth (lines, line) w = (lines', line') →
  concat (map wordsOf lines') ++ wordsOf line'
  = concat (map wordsOf lines) ++ wordsOf line ++ wordsOf w.
Proof.
  intros Hw. unfold wrapStep.
  destruct (nonEmpty line) eqn:El; destruct (Qle_bool _ _); intros [= <- <-]; simpl.
  - by rewrite wordsOf_app_space.
  - rewrite map_app, concat_app. simpl. by rewrite app_nil_r, <- app_assoc.
  - apply nonEmpty_false in El as ->. by rewrite wordsOf_nil.
  - apply nonEmpty_false in El as ->. by rewrite wordsOf_nil.
Qed.

Lemma wrapStep_fits lines line w lines' line' :
  w ∈ splitSpaces text →
  Forall (λ l, l ≠ [] ∧ lineFits widthOfTextAtSize size maxWidth text l) lines →
  (line = [] ∨ lineFits widthOfTextAtSize size maxWidth text line) →
  wrapStep widthOfTextAtSize size maxWidth (lines, line) w = (lines', line') →
  Forall (λ l, l ≠ [] ∧ lineFits widthOfTextAtSize size maxWidth text l) lines'
  ∧ (line' = [] ∨ lineFits widthOfTextAtSize size maxWidth text line').
Proof.
  intros Hw Hlines Hline. unfold wrapStep.
  assert (Hwfit : w = [] ∨ lineFits widthOfTextAtSize size maxWidth text w).
  { destruct w as [|c w']; [by left|]. right. right. unfold wordsOf, nonEmptyPieces.
    apply list_elem_of_filter. by split. }
  destruct (Qle_bool (widthOfTextAtSize _ size) maxWidth) eqn:Eq; intros [= <- <-].
  - split; [done|]. right. left. by apply Qle_bool_iff.
  - split; [|done]. destruct (nonEmpty line) eqn:El; [|done].
    apply nonEmpty_true in El. apply Forall_app. split; [done|].
    constructor; [|constructor]. split; [done|]. by destruct Hline.
Qed.

Lemma wrap_fold ws lines line lines' line' :
  Forall (λ w, w ∈ splitSpaces text ∧ noSpace w) ws →
  Forall (λ l, l ≠ [] ∧ lineFits widthOfTextAtSize size maxWidth text l) lines →
  (line = [] ∨ lineFits widthOfTextAtSize size maxWidth text line) →
  foldl (wrapStep widthOfTextAtSize size maxWidth) (lines, line) ws = (lines', line') →
  (Forall (λ l, l ≠ [] ∧ lineFits widthOfTextAtSize size maxWidth text l) lines'
   ∧ (line' = [] ∨ lineFits widthOfTextAtSize size maxWidth text line'))
  ∧ concat (map wordsOf lines') ++ wordsOf line'
    = concat (map wordsOf lines) ++ wordsOf line ++ concat (map wordsOf ws).
Proof.
  intros Hws. revert lines line.
  induction Hws as [|w ws [Hin Hns] Hws IH]; intros lines line Hlines Hline.
  - simpl. intros [= <- <-]. by rewrite !app_nil_r.
  - cbn [foldl map concat].
    destruct (wrapStep widthOfTextAtSize size maxWidth (lines, line) w)
      as [lines1 line1] eqn:Estep.
    pose proof (wrapStep_words _ _ _ _ _ Hns Estep) as Hwords.
    destruct (wrapStep_fits _ _ _ _ _ Hin Hlines Hline Estep) as [Hl1 Hc1].
    intros Hfold. destruct (IH lines1 line1 Hl1 Hc1 Hfold) as [IHfit IHwords].
    split; [done|].
    rewrite IHwords, app_assoc, Hwords. by rewrite <- !app_assoc.
Qed.

(** C8 (amended). With a positive [maxWidth], every line of
    [wrapLines] is non-empty and either measures at most [maxWidth] or
    is a single word of the text (a word is never broken, so a word wider
    than [maxWidth] stands on a line of its own), and the words of the
    lines, in order, are the words of the text. *)
Theorem wrapLines_spec :
  (0 < maxWidth)%Q →
  let lines := wrapLines widthOfTextAtSize text size (Some maxWidth) in
  (∀ l, l ∈ lines →
        l ≠ [] ∧ ((widthOfTextAtSize l size <= maxWidth)%Q ∨ l ∈ wordsOf text))
  ∧ concat (map wordsOf lines) = wordsOf text.
Proof.
  intros Hpos lines. subst lines. unfold wrapLines.
  assert (Qeq_bool maxWidth 0 = false) as ->.
  { destruct (Qeq_bool maxWidth 0) eqn:E; [|done].
    apply Qeq_bool_eq in E. apply Qlt_not_eq in Hpos. exfalso. apply Hpos.
    by apply Qeq_sym. }
  assert (Hws : Forall (λ w, w ∈ splitSpaces text ∧ noSpace w) (splitSpaces text)).
  { apply Forall_forall. intros w Hw. split; [done|].
    by eapply (proj1 (Forall_forall _ _) (splitSpaces_pieces text)). }
  destruct (foldl (wrapStep widthOfTextAtSize size maxWidth) ([], []) (splitSpaces text))
    as [lines line] eqn:Efold.
  destruct (wrap_fold _ [] [] _ _ Hws (Forall_nil_2 _) (or_introl eq_refl) Efold)
    as [[Hlines Hline] Hwords].
  simpl in Hwords.
  rewrite (wordsOf_pieces (splitSpaces text)) in Hwords by apply splitSpaces_pieces.
  destruct (nonEmpty line) eqn:El.
  - apply nonEmpty_true in El. split.
    + intros l Hl. apply elem_of_app in Hl as [Hl|Hl].
      * by eapply (proj1 (Forall_forall _ _) Hlines).
      * apply list_elem_of_singleton in Hl as ->. split; [done|]. by destruct Hline.
    + rewrite map_app, concat_app. simpl. by rewrite app_nil_r.
  - apply nonEmpty_false in El as ->. split.
    + intros l Hl. by eapply (proj1 (Forall_forall _ _) Hlines).
    + rewrite wordsOf_nil, app_nil_r in Hwords. done.
Qed.

End WrapLinesFacts.

Example wrapLines_run :
  map ascii_string
      (wrapLines halfEmWidth (js " the quick  brown fox jumps ") 10 (Some 50%Q))
  = ["the quick"; "brown fox"; "jumps "].
Proof. vm_compute. reflexivity. Qed.

(** C8, as stated, fails: wrapped to a width of 20 at size 10, the
    one-word text below comes out as one line, 170 wide. *)
Lemma wrapLines_width_counterexample :
  let lines := wrapLines halfEmWidth (js "Supercalifragilisticexpialidocious") 10 (Some 20%Q) in
  map ascii_string lines = ["Supercalifragilisticexpialidocious"]
  ∧ map (λ l, Qle_bool (halfEmWidth l 10) 20) lines = [false].
Proof. split; vm_compute; reflexivity. Qed.

Lemma wrapLines_spec_witness :
  let lines := wrapLines halfEmWidth (js "pay the Supercalifragilistic fee") 10 (Some 50%Q) in
  (∀ l, l ∈ lines →
        l ≠ [] ∧ ((halfEmWidth l 10 <= 50)%Q
                  ∨ l ∈ wordsOf (js "pay the Supercalifragilistic fee")))
  ∧ concat (map wordsOf lines) = wordsOf (js "pay the Supercalifragilistic fee").
Proof.
  apply (wrapLines_spec halfEmWidth 10 50 (js "pay the Supercalifragilistic fee")).
  reflexivity.
Defined.

(** ** Template input mapper *)

(** C9 (amended). [buildTemplateInput] reads its two inputs and the
    clock and writes to neither input (it builds a fresh object).  Two
    invocations with equal inputs give equal outputs whenever the clock
    reads the same where it is read: the current date, for the
    confidentiality agreement, and the current date and time, for an
    agreement record without a submission date.  For any other template
    and a record with its submission date the output is determined by the
    inputs alone. *)
Theorem buildTemplateInput_deterministic (E : Runtime) (templateName : string)
    (agreementData : AgreementData) (summaryData : option Summary) (now1 now2 : Z) :
  (ad_submittedAt agreementData = None →
   rt_toLocaleString E now1 = rt_toLocaleString E now2) →
  (templateName = "ConfidentialityAgreement" →
   rt_toLocaleDateString E now1 = rt_toLocaleDateString E now2) →
  buildTemplateInput E now1 templateName agreementData summaryData
  = buildTemplateInput E now2 templateName agreementData summaryData.
Proof.
  intros Hsub Hdate. unfold buildTemplateInput. cbv zeta.
  assert (rt_toLocaleString E (default now1 (ad_submittedAt agreementData))
          = rt_toLocaleString E (default now2 (ad_submittedAt agreementData))) as ->.
  { destruct (ad_submittedAt agreementData) as [t|]; [done|]. exact (Hsub eq_refl). }
  destruct (bool_decide (templateName = "ConfidentialityAgreement")) eqn:Ec; [|done].
  apply bool_decide_eq_true in Ec. by rewrite (Hdate Ec).
Qed.

Lemma buildTemplateInput_deterministic_witness :
  buildTemplateInput hostUTC T0 "PricingSchedule" acmeData None
  = buildTemplateInput hostUTC (T0 + MS_PER_DAY) "PricingSchedule" acmeData None.
Proof.
  apply (buildTemplateInput_deterministic hostUTC "PricingSchedule" acmeData None).
  - discriminate.
  - discriminate.
Defined.

(** C9, as stated, fails: for the confidentiality agreement two
    invocations with the same agreement record and the same (absent)
    summary, one day apart, give different outputs. *)
Lemma buildTemplateInput_clock_counterexample :
  buildTemplateInput hostUTC T0 "ConfidentialityAgreement" acmeData None !! "executedDate"
  = Some (js "1/2/2024")
  ∧ buildTemplateInput hostUTC (T0 + MS_PER_DAY) "ConfidentialityAgreement" acmeData None
      !! "executedDate"
    = Some (js "1/3/2024")
  ∧ buildTemplateInput hostUTC T0 "ConfidentialityAgreement" acmeData None
    ≠ buildTemplateInput hostUTC (T0 + MS_PER_DAY) "ConfidentialityAgreement" acmeData None.
Proof.
  split; [vm_compute; reflexivity|]. split; [vm_compute; reflexivity|].
  intros Heq. apply (f_equal (λ m : gmap string jsstring, m !! "executedDate")) in Heq.
  vm_compute in Heq. discriminate Heq.
Qed.

(** ** Signing routes: rejections *)

(** A request without a signature is turned away before its token is
    looked at, on both routes. *)
Lemma missing_signature_rejected (E : Runtime) (w : World) (now : Z) (req : SignRequest) :
  truthy (rq_signature req) = false →
  clientSign E w now req = (reply 400 (Message "Missing signature"), w)
  ∧ directorSign E w now req = (reply 400 (Message "Missing signature"), w).
Proof. intros H. unfold clientSign, directorSign. by rewrite H. Qed.

Lemma client_signed_rejected (E : Runtime) (w : World) (now : Z) (req : SignRequest)
    (decoded : Claims) (ag : Agreement) (i : nat) (doc : Document) :
  truthy (rq_signature req) = true →
  jwt_verify (rq_token req) now = Ok decoded →
  agreements w !! agid decoded = Some ag →
  list_find (λ d, Some (d_name d) = docName decoded) (ag_documents ag) = Some (i, doc) →
  role decoded = "client" → d_clientSigned doc = true →
  clientSign E w now req = (reply 400 (Message "Document already signed"), w).
Proof.
  intros Hsig Hverify Hag Hfind Hrole Hsigned. unfold clientSign.
  rewrite Hsig, Hverify. cbn [negb]. rewrite Hrole. cbn.
  by rewrite Hag, Hfind, Hsigned.
Qed.

Lemma director_signed_rejected (E : Runtime) (w : World) (now : Z) (req : SignRequest)
    (decoded : Claims) (ag : Agreement) (i : nat) (doc : Document) (slot : DirectorSlot) :
  truthy (rq_signature req) = true →
  jwt_verify (rq_token req) now = Ok decoded →
  agreements w !! agid decoded = Some ag →
  list_find (λ d, Some (d_name d) = docName decoded) (ag_documents ag) = Some (i, doc) →
  role decoded = "director" →
  d_directors doc !! default 0%nat (directorIndex decoded) = Some slot →
  ds_signed slot = true →
  directorSign E w now req
  = (reply 400 (Message (if d_clientSigned doc then "Document already signed by you"
                         else "Client must sign first")), w).
Proof.
  intros Hsig Hverify Hag Hfind Hrole Hslot Hsigned. unfold directorSign.
  rewrite Hsig, Hverify. cbn [negb]. rewrite Hrole. cbn.
  rewrite Hag, Hfind. destruct (d_clientSigned doc); cbn; [|done].
  by rewrite Hslot, Hsigned.
Qed.

(** C1. Once the flag a token targets is set, a signing request that
    presents a valid token for that target is rejected with status 400
    and the message of the violated precondition (the rejections the
    specification classes as Conflict), and the world is left as it was:
    ["Document already signed"] on the client route; on the director
    route ["Document already signed by you"], or ["Client must sign
    first"] should the document's client flag be unset. *)
Theorem consumed_token_rejected (E : Runtime) (w : World) (now : Z) (req : SignRequest)
    (decoded : Claims) (ag : Agreement) (i : nat) (doc : Document) :
  truthy (rq_signature req) = true →
  jwt_verify (rq_token req) now = Ok decoded →
  agreements w !! agid decoded = Some ag →
  list_find (λ d, Some (d_name d) = docName decoded) (ag_documents ag) = Some (i, doc) →
  (role decoded = "client" → d_clientSigned doc = true →
   clientSign E w now req = (reply 400 (Message "Document already signed"), w))
  ∧ (role decoded = "director" →
     ∀ slot, d_directors doc !! default 0%nat (directorIndex decoded) = Some slot →
             ds_signed slot = true →
     directorSign E w now req
     = (reply 400 (Message (if d_clientSigned doc then "Document already signed by you"
                            else "Client must sign first")), w)).
Proof.
  intros Hsig Hverify Hag Hfind. split.
  - intros Hrole Hsigned. by eapply client_signed_rejected.
  - intros Hrole slot Hslot Hsigned. by eapply director_signed_rejected.
Qed.

(** C2. A director-sign request for a document whose client flag is
    unset is rejected with status 400 and ["Client must sign first"],
    whatever its director index, and the world is left as it was. *)
Theorem director_before_client_rejected (E : Runtime) (w : World) (now : Z)
    (req : SignRequest) (decoded : Claims) (ag : Agreement) (i : nat) (doc : Document) :
  truthy (rq_signature req) = true →
  jwt_verify (rq_token req) now = Ok decoded →
  role decoded = "director" →
  agreements w !! agid decoded = Some ag →
  list_find (λ d, Some (d_name d) = docName decoded) (ag_documents ag) = Some (i, doc) →
  d_clientSigned doc = false →
  directorSign E w now req = (reply 400 (Message "Client must sign first"), w).
Proof.
  intros Hsig Hverify Hrole Hag Hfind Hunsigned. unfold directorSign.
  rewrite Hsig, Hverify. cbn [negb]. rewrite Hrole. cbn.
  by rewrite Hag, Hfind, Hunsigned.
Qed.

(** ** Lists of documents *)

Lemma forallb_insert_same {A} (f : A → bool) (l : list A) (i : nat) (d d' : A) :
  l !! i = Some d → f d' = f d → forallb f (<[i:=d']> l) = forallb f l.
Proof.
  revert i. induction l as [|x l IH]; intros [|i] Hl Hf; simplify_eq/=; [by rewrite Hf|].
  by rewrite (IH i).
Qed.

Lemma forallb_lookup_false {A} (f : A → bool) (l : list A) (i : nat) (d : A) :
  l !! i = Some d → f d = false → forallb f l = false.
Proof.
  revert i. induction l as [|x l IH]; intros [|i] Hl Hf; simplify_eq/=; [by rewrite Hf|].
  rewrite (IH i) by done. apply andb_false_r.
Qed.

Lemma forallb_lookup_true {A} (f : A → bool) (l : list A) (i : nat) (d : A) :
  forallb f l = true → l !! i = Some d → f d = true.
Proof.
  intros H Hl. by apply (proj1 (forallb_forall f l) H), list_elem_of_In, list_elem_of_lookup_2 with i.
Qed.

Lemma forallb_all_false {A} (f : A → bool) (l : list A) :
  l ≠ [] → (∀ x, x ∈ l → f x = false) → forallb f l = false.
Proof.
  destruct l as [|x l]; [done|]. intros _ H. simpl. by rewrite (H x) by left.
Qed.

Lemma forallb_ext_in {A} (f g : A → bool) (l : list A) :
  (∀ x, x ∈ l → f x = g x) → forallb f l = forallb g l.
Proof.
  induction l as [|x l IH]; intros H; simpl; [done|].
  rewrite (H x) by left. rewrite IH; [done|]. intros y Hy. apply H. by right.
Qed.

Lemma insert_not_nil {A} (l : list A) (i : nat) (x : A) : l ≠ [] → <[i:=x]> l ≠ [].
Proof. destruct l, i; done. Qed.

Lemma list_find_lookup {A} (P : A → Prop) `{∀ x, Decision (P x)} (l : list A) i x :
  list_find P l = Some (i, x) → l !! i = Some x ∧ P x.
Proof. intros Hf. apply list_find_Some in Hf as (? & ? & _). done. Qed.

(** ** The world under file and mail operations *)

Lemma agreements_stamp E w inPath signature tc oc outPath label w' draw :
  stampSignatureWithTime E w inPath signature tc oc outPath label = Ok (w', draw) →
  agreements w' = agreements w.
Proof.
  unfold stampSignatureWithTime. repeat case_match; try done. by intros [= <- _].
Qed.

Lemma agreements_drawFields E w templatePath fieldMap input outPath w' :
  drawFieldsOnPdf E w templatePath fieldMap input outPath = Ok w' →
  agreements w' = agreements w.
Proof.
  unfold drawFieldsOnPdf. repeat case_match; try done. by intros [= <-].
Qed.

Lemma agreements_mails w ms : agreements (foldl safeSendMail w ms) = agreements w.
Proof. revert w. induction ms as [|m ms IH]; intros w; simpl; [done|]. by rewrite IH. Qed.

Lemma storeConsistent_except id w : storeConsistent w → storeConsistentExcept id w.
Proof. intros H k ag _. apply H. Qed.

Lemma storeConsistentExcept_agreements id w w' :
  agreements w' = agreements w → storeConsistentExcept id w → storeConsistentExcept id w'.
Proof. intros Heq H k ag. rewrite Heq. apply H. Qed.

Lemma storeConsistent_agreements w w' :
  agreements w' = agreements w → storeConsistent w → storeConsistent w'.
Proof. intros Heq H k ag. rewrite Heq. apply H. Qed.

Lemma storeConsistentExcept_save w ag :
  storeConsistentExcept (ag_id ag) w → storeConsistentExcept (ag_id ag) (save w ag).
Proof.
  intros H k a Hk. unfold save. cbn [agreements]. rewrite lookup_insert_ne by done.
  by apply H.
Qed.

Lemma storeConsistent_save w ag :
  storeConsistentExcept (ag_id ag) w → flagsConsistent ag → storeConsistent (save w ag).
Proof.
  intros H Hag k a. unfold save. cbn [agreements].
  destruct (decide (k = ag_id ag)) as [->|Hne].
  - rewrite lookup_insert_eq. by intros [= <-].
  - rewrite lookup_insert_ne by done. by apply H.
Qed.

Lemma storeConsistent_lookup w ag :
  storeConsistentExcept (ag_id ag) w → agreements w !! ag_id ag = Some ag →
  flagsConsistent ag → storeConsistent w.
Proof.
  intros H Hl Hag k a Hk. destruct (decide (k = ag_id ag)) as [->|Hne].
  - rewrite Hl in Hk. by injection Hk as <-.
  - by eapply H.
Qed.

(** ** Flags under assignments to one document *)

Lemma slotsComplete_directors d d' :
  d_directors d' = d_directors d → slotsComplete d' = slotsComplete d.
Proof. unfold slotsComplete. by intros ->. Qed.

Lemma flagsConsistent_set_document ag i d d' :
  ag_documents ag !! i = Some d →
  d_clientSigned d' = d_clientSigned d → d_directors d' = d_directors d →
  flagsConsistent ag → flagsConsistent (set_document ag i d').
Proof.
  intros Hl Hc Hd [H1 H2 H3 H4]. split; cbn.
  - by apply insert_not_nil.
  - by rewrite (forallb_insert_same _ _ _ d).
  - rewrite (forallb_insert_same _ _ _ d); [done..|]. by apply slotsComplete_directors.
  - intros Hf. apply Forall_insert; [by apply H4|].
    rewrite Hd. by apply (proj1 (Forall_lookup _ _) (H4 Hf) i d).
Qed.

Lemma clientPhase_of_unsigned ag i d :
  flagsConsistent ag → ag_documents ag !! i = Some d → d_clientSigned d = false →
  clientPhase ag.
Proof.
  intros [H1 H2 H3 H4] Hl Hd.
  assert (ag_clientSigned ag = false) as Hc.
  { rewrite H2. by apply (forallb_lookup_false _ _ i d). }
  split; [done..| |by apply H4].
  rewrite H3. apply forallb_all_false; [done|]. intros x Hx.
  unfold slotsComplete.
  by rewrite (proj1 (Forall_forall _ _) (H4 Hc) x Hx).
Qed.

Lemma clientPhase_set_document ag i d' :
  clientPhase ag → d_directors d' = [] → clientPhase (set_document ag i d').
Proof.
  intros [H1 H2 H3 H4] Hd. split; cbn; [by apply insert_not_nil|done..|].
  by apply Forall_insert.
Qed.

Lemma clientPhase_lookup ag i d : clientPhase ag → ag_documents ag !! i = Some d → d_directors d = [].
Proof. intros [_ _ _ H] Hl. by apply (proj1 (Forall_lookup _ _) H i d). Qed.

Lemma clientPhase_pending ag j d :
  clientPhase ag → ag_documents ag !! j = Some d → d_clientSigned d = false →
  flagsConsistent ag.
Proof.
  intros [H1 H2 H3 H4] Hl Hd. split; [done| | |done].
  - rewrite H2. symmetry. by apply (forallb_lookup_false _ _ j d).
  - rewrite H3. symmetry. apply forallb_all_false; [done|]. intros x Hx.
    unfold slotsComplete. by rewrite (proj1 (Forall_forall _ _) H4 x Hx).
Qed.

(** ** The client chain keeps the flags consistent *)

Lemma newDirectorSlots_incomplete ag d emails now :
  slotsComplete (set_directors d (newDirectorSlots ag d emails now)) = false.
Proof.
  unfold slotsComplete, newDirectorSlots. cbn [d_directors set_directors].
  by destruct emails as [|e es].
Qed.

Lemma clientSign_next_consistent E w now ag :
  clientPhase ag → storeConsistentExcept (ag_id ag) w →
  storeConsistent (clientSign_next E w now ag).2.
Proof.
  intros Hph Hw. unfold clientSign_next.
  destruct (list_find _ (ag_documents ag)) as [[j nextDoc]|] eqn:Hfind.
  - apply list_find_lookup in Hfind as [Hl Hunsigned]. cbn [snd].
    match goal with |- storeConsistent (save w (set_document ag j ?d)) => set (d1 := d) end.
    apply (storeConsistent_save w (set_document ag j d1)); [done|].
    apply (clientPhase_pending _ j d1).
    + apply clientPhase_set_document; [done|]. cbn. by eapply clientPhase_lookup.
    + cbn. apply list_lookup_insert_eq. by eapply lookup_lt_Some.
    + done.
  - apply list_find_None in Hfind. cbn [snd].
    eapply storeConsistent_agreements; [apply agreements_mails|].
    match goal with |- storeConsistent (save w ?a) => set (ag2 := a) end.
    apply (storeConsistent_save w ag2); [done|].
    destruct Hph as [H1 H2 H3 H4]. split; subst ag2; cbn.
    + by destruct (ag_documents ag).
    + symmetry. apply forallb_forall. intros d Hd.
      apply in_map_iff in Hd as (d0 & <- & Hd0). cbn.
      apply list_elem_of_In in Hd0.
      pose proof (proj1 (Forall_forall _ _) Hfind d0 Hd0) as Hn.
      cbv beta in Hn. by destruct (d_clientSigned d0).
    + rewrite H3. symmetry. apply forallb_all_false; [by destruct (ag_documents ag)|].
      intros d Hd. apply list_elem_of_fmap in Hd as (d0 & -> & _).
      apply newDirectorSlots_incomplete.
    + done.
Qed.

Lemma clientSign_stamp_consistent E w now ag i doc template signature coords inFile :
  flagsConsistent ag → ag_documents ag !! i = Some doc → d_clientSigned doc = false →
  storeConsistent w →
  storeConsistent (clientSign_stamp E w now ag i doc template signature coords inFile).2.
Proof.
  intros Hag Hl Hunsigned Hw. unfold clientSign_stamp. cbv zeta.
  pose proof (clientPhase_of_unsigned _ _ _ Hag Hl Hunsigned) as Hph.
  destruct (stampSignatureWithTime _ _ _ _ _ _ _ _) as [[w2 draw]|m] eqn:Hstamp.
  - apply agreements_stamp in Hstamp.
    apply clientSign_next_consistent.
    + apply clientPhase_set_document; [done|]. cbn. by eapply clientPhase_lookup.
    + cbn [ag_id set_document set_documents].
      apply (storeConsistentExcept_save w2 (set_document ag i _)).
      apply (storeConsistentExcept_agreements _ w); [done|].
      by apply storeConsistent_except.
  - cbn [snd]. by apply (storeConsistent_agreements w).
Qed.

(** ** The self-healer keeps the flags, and fills the draft path only
    when it is empty *)

Lemma ensureDraftExists_Ok E w now ag i doc p ag1 w1 :
  ensureDraftExists E w now ag i doc = Ok (p, ag1, w1) →
  ∃ w0, agreements w0 = agreements w ∧ w1 = save w0 ag1
        ∧ ag1 = set_document ag i
                  (if truthy (d_draftPdfPath doc) then doc else set_draftPdfPath doc p).
Proof.
  unfold ensureDraftExists.
  destruct (findTemplate (d_name doc)) as [template|]; [|done].
  destruct (negb (existsSync w _)); [done|].
  destruct (drawFieldsOnPdf _ _ _ _ _ _) as [w0|m] eqn:Hdraw; [|done].
  intros [= <- <- <-]. exists w0. split; [by eapply agreements_drawFields|done].
Qed.

(** The self-healer itself never replaces a recorded draft path. *)
Lemma ensureDraftExists_keeps_path E w now ag i doc p ag1 w1 :
  ensureDraftExists E w now ag i doc = Ok (p, ag1, w1) →
  ag_documents ag !! i = Some doc → truthy (d_draftPdfPath doc) = true →
  ag_documents ag1 = ag_documents ag.
Proof.
  intros H Hl Ht. apply ensureDraftExists_Ok in H as (w0 & _ & _ & ->).
  rewrite Ht. cbn. by apply list_insert_id.
Qed.

Lemma ensureDraftExists_fills_path E w now ag i doc p ag1 w1 :
  ensureDraftExists E w now ag i doc = Ok (p, ag1, w1) →
  ag_documents ag !! i = Some doc → truthy (d_draftPdfPath doc) = false →
  d_draftPdfPath <$> ag_documents ag1 !! i = Some (Some p).
Proof.
  intros H Hl Ht. apply ensureDraftExists_Ok in H as (w0 & _ & _ & ->).
  rewrite Ht. cbn. rewrite list_lookup_insert_eq by by eapply lookup_lt_Some. done.
Qed.

Lemma ensureDraftExists_consistent E w now ag i doc p ag1 w1 :
  ensureDraftExists E w now ag i doc = Ok (p, ag1, w1) →
  flagsConsistent ag → ag_documents ag !! i = Some doc → storeConsistent w →
  flagsConsistent ag1 ∧ storeConsistent w1
  ∧ ∃ doc1, ag_documents ag1 !! i = Some doc1
            ∧ d_clientSigned doc1 = d_clientSigned doc
            ∧ d_directors doc1 = d_directors doc.
Proof.
  intros H Hag Hl Hw. apply ensureDraftExists_Ok in H as (w0 & Hw0 & -> & ->).
  set (doc1 := if truthy (d_draftPdfPath doc) then doc else set_draftPdfPath doc p).
  assert (d_clientSigned doc1 = d_clientSigned doc ∧ d_directors doc1 = d_directors doc)
    as [Hc Hd] by (subst doc1; by destruct (truthy _)).
  assert (flagsConsistent (set_document ag i doc1)) as Hag1
    by by apply (flagsConsistent_set_document ag i doc).
  split; [done|]. split.
  - apply storeConsistent_save; [|done]. apply storeConsistent_except.
    by apply (storeConsistent_agreements w).
  - exists doc1. split; [|done]. cbn. apply list_lookup_insert_eq. by eapply lookup_lt_Some.
Qed.

Lemma clientSign_heal_consistent E w now ag i doc inFile ag1 w1 :
  clientSign_heal E w now ag i doc = Ok (inFile, ag1, w1) →
  flagsConsistent ag → ag_documents ag !! i = Some doc → storeConsistent w →
  flagsConsistent ag1 ∧ storeConsistent w1
  ∧ ∃ doc1, ag_documents ag1 !! i = Some doc1
            ∧ d_clientSigned doc1 = d_clientSigned doc.
Proof.
  intros H Hag Hl Hw. unfold clientSign_heal in H.
  destruct (truthy _ && existsSync _ _).
  - injection H as <- <- <-. split; [done|]. split; [done|]. by exists doc.
  - destruct (ensureDraftExists E w now ag i doc) as [[[p agE] wE]|m] eqn:Hens; [|done].
    injection H as <- <- <-.
    destruct (ensureDraftExists_consistent _ _ _ _ _ _ _ _ _ Hens Hag Hl Hw)
      as (HagE & HwE & docE & HlE & HcE & HdE).
    rewrite HlE. cbn [default].
    assert (flagsConsistent (set_document agE i (set_draftPdfPath docE p))) as Hag2
      by by apply (flagsConsistent_set_document agE i docE).
    split; [done|]. split.
    + apply storeConsistent_save; [|done]. by apply storeConsistent_except.
    + exists (set_draftPdfPath docE p). split; [|done].
      cbn. apply list_lookup_insert_eq. by eapply lookup_lt_Some.
Qed.

Lemma clientSign_consistent E w now req :
  storeConsistent w → storeConsistent (clientSign E w now req).2.
Proof.
  intros Hw. unfold clientSign.
  destruct (negb (truthy (rq_signature req))); [done|].
  destruct (jwt_verify (rq_token req) now) as [decoded|m]; [|done].
  destruct (negb (bool_decide (role decoded = "client"))); [done|].
  destruct (agreements w !! agid decoded) as [ag|] eqn:Hag; [|done].
  destruct (list_find _ (ag_documents ag)) as [[i doc]|] eqn:Hfind; [|done].
  apply list_find_lookup in Hfind as [Hl _].
  destruct (d_clientSigned doc) eqn:Hunsigned; [done|].
  destruct (findTemplate (d_name doc)) as [template|]; [|done].
  destruct (Hw _ _ Hag) as [Hkey Hcons].
  destruct (clientSign_heal E w now ag i doc) as [[[inFile ag1] w1]|m] eqn:Hheal; [|done].
  destruct (clientSign_heal_consistent _ _ _ _ _ _ _ _ _ Hheal Hcons Hl Hw)
    as (Hag1 & Hw1 & doc1 & Hl1 & Hc1).
  rewrite Hl1. cbn [default from_option id].
  apply clientSign_stamp_consistent; try done. congruence.
Qed.

(** ** The director chain keeps the flags consistent *)

Lemma directorsComplete_slots (l : list Document) :
  forallb d_clientSigned l = true →
  forallb directorsComplete l = forallb slotsComplete l.
Proof.
  intros H. apply forallb_ext_in. intros d Hd.
  apply list_elem_of_lookup in Hd as [i Hi].
  unfold directorsComplete, slotsComplete.
  by rewrite (forallb_lookup_true _ _ _ _ H Hi).
Qed.

Lemma slotsComplete_unsigned d idx slot :
  d_directors d !! idx = Some slot → ds_signed slot = false → slotsComplete d = false.
Proof.
  intros Hl Hs. unfold slotsComplete.
  rewrite (forallb_lookup_false _ _ _ _ Hl Hs). apply andb_false_r.
Qed.

Lemma directorPending_slot idx d :
  directorPending idx d = true →
  ∃ slot, d_directors d !! idx = Some slot ∧ ds_signed slot = false.
Proof.
  unfold directorPending. intros H. apply andb_prop in H as [_ H].
  destruct (d_directors d !! idx) as [slot|]; [|done].
  exists slot. split; [done|]. by destruct (ds_signed slot).
Qed.

Lemma directorPhase_of_unsigned ag i doc idx slot :
  flagsConsistent ag → ag_documents ag !! i = Some doc →
  d_directors doc !! idx = Some slot → ds_signed slot = false →
  directorPhase ag.
Proof.
  intros [H1 H2 H3 H4] Hl Hslot Hs.
  assert (ag_clientSigned ag = true) as Hc.
  { destruct (ag_clientSigned ag) eqn:E; [done|].
    pose proof (proj1 (Forall_lookup _ _) (H4 eq_refl) i doc Hl) as Hnil.
    cbv beta in Hnil. by rewrite Hnil in Hslot. }
  split; [done|done|by rewrite <- H2|].
  rewrite H3. apply (forallb_lookup_false _ _ i doc); [done|].
  by eapply slotsComplete_unsigned.
Qed.

Lemma directorPhase_set_document ag i d d' :
  directorPhase ag → ag_documents ag !! i = Some d →
  d_clientSigned d' = d_clientSigned d →
  directorPhase (set_document ag i d').
Proof.
  intros [H1 H2 H3 H4] Hl Hc. split; cbn; [by apply insert_not_nil|done| |done].
  by rewrite (forallb_insert_same _ _ _ d).
Qed.

Lemma directorPhase_pending ag j d :
  directorPhase ag → ag_documents ag !! j = Some d → slotsComplete d = false →
  flagsConsistent ag.
Proof.
  intros [H1 H2 H3 H4] Hl Hs. split; [done|congruence| |congruence].
  rewrite H4. symmetry. by apply (forallb_lookup_false _ _ j d).
Qed.

Lemma directorSign_next_consistent E w now ag idx :
  directorPhase ag → agreements w !! ag_id ag = Some ag →
  storeConsistentExcept (ag_id ag) w →
  storeConsistent (directorSign_next E w now ag idx).2.
Proof.
  intros Hph Hstored Hw. unfold directorSign_next.
  destruct (list_find _ (ag_documents ag)) as [[j nextDoc]|] eqn:Hfind.
  - apply list_find_lookup in Hfind as [Hl Hpending].
    destruct (directorPending_slot _ _ Hpending) as (slot & Hslot & Hunsigned).
    rewrite Hslot.
    assert (flagsConsistent ag) as Hag.
    { apply (directorPhase_pending ag j nextDoc); [done..|].
      by eapply slotsComplete_unsigned. }
    destruct (tokenTruthy (ds_directorSignToken slot)).
    + cbn [snd]. by apply (storeConsistent_lookup w ag).
    + cbn [snd].
      match goal with |- storeConsistent (save w (set_document ag j ?d)) => set (d1 := d) end.
      apply (storeConsistent_save w (set_document ag j d1)); [done|].
      apply (directorPhase_pending _ j d1).
      * by apply (directorPhase_set_document ag j nextDoc).
      * cbn. apply list_lookup_insert_eq. by eapply lookup_lt_Some.
      * subst d1. eapply (slotsComplete_unsigned _ idx).
        -- cbn. apply list_lookup_insert_eq. by eapply lookup_lt_Some.
        -- done.
  - destruct Hph as [H1 H2 H3 H4].
    unfold allDirectorsComplete. rewrite (directorsComplete_slots _ H3).
    destruct (forallb slotsComplete (ag_documents ag)) eqn:Hall; cbn [snd].
    + apply (storeConsistent_save _ (set_agDirectorSigned ag now)); [done|].
      split; cbn; [done|congruence|done|congruence].
    + apply (storeConsistent_lookup w ag); [done..|].
      split; [done|congruence|congruence|congruence].
Qed.

Lemma directorSign_stamp_consistent E w now ag i doc idx dstate sigSpec signature coords :
  flagsConsistent ag → ag_documents ag !! i = Some doc →
  d_directors doc !! idx = Some dstate → ds_signed dstate = false →
  storeConsistent w →
  storeConsistent (directorSign_stamp E w now ag i doc idx dstate sigSpec signature coords).2.
Proof.
  intros Hag Hl Hslot Hunsigned Hw. unfold directorSign_stamp. cbv zeta.
  destruct (negb _); [done|].
  destruct (stampSignatureWithTime _ _ _ _ _ _ _ _) as [[w2 draw]|m] eqn:Hstamp.
  - apply agreements_stamp in Hstamp.
    apply directorSign_next_consistent.
    + apply (directorPhase_set_document ag i doc); [|done..].
      by eapply directorPhase_of_unsigned.
    + cbn. by rewrite lookup_insert_eq.
    + cbn [ag_id set_document set_documents].
      apply (storeConsistentExcept_save w2 (set_document ag i _)).
      apply (storeConsistentExcept_agreements _ w); [done|].
      by apply storeConsistent_except.
  - done.
Qed.

Lemma directorSign_consistent E w now req :
  storeConsistent w → storeConsistent (directorSign E w now req).2.
Proof.
  intros Hw. unfold directorSign.
  destruct (negb (truthy (rq_signature req))); [done|].
  destruct (jwt_verify (rq_token req) now) as [decoded|m]; [|done].
  destruct (negb (bool_decide (role decoded = "director"))); [done|].
  cbv zeta.
  destruct (agreements w !! agid decoded) as [ag|] eqn:Hag; [|done].
  destruct (list_find _ (ag_documents ag)) as [[i doc]|] eqn:Hfind; [|done].
  apply list_find_lookup in Hfind as [Hl _].
  destruct (negb (d_clientSigned doc)); [done|].
  destruct (d_directors doc !! _) as [dstate|] eqn:Hslot; [|done].
  destruct (ds_signed dstate) eqn:Hunsigned; [done|].
  destruct (getDirectorSigSpec _ _) as [sigSpec|]; [|done].
  apply directorSign_stamp_consistent; try done. by destruct (Hw _ _ Hag).
Qed.

(** ** Submission, preview and pricing keep the flags consistent *)

Lemma draftDocuments_spec E w now id payload summary templates r w' :
  draftDocuments E w now id payload summary templates = (r, w') →
  agreements w' = agreements w
  ∧ ∀ docs, r = Ok docs →
            length docs = length templates
            ∧ Forall (λ d, d_clientSigned d = false ∧ d_directors d = []) docs.
Proof.
  revert w r w'. induction templates as [|t rest IH]; intros w r w'; simpl.
  - intros [= <- <-]. split; [done|]. by intros docs [= <-].
  - destruct (negb (existsSync w _)).
    { intros [= <- <-]. by split. }
    destruct (drawFieldsOnPdf _ _ _ _ _ _) as [w1|m] eqn:Hdraw.
    2:{ intros [= <- <-]. by split. }
    apply agreements_drawFields in Hdraw.
    destruct (draftDocuments E w1 now id payload summary rest) as [[docs|m] w2] eqn:Hrest;
      destruct (IH _ _ _ Hrest) as [Hagr Hdocs]; intros [= <- <-].
    + split; [congruence|]. intros ? [= <-].
      destruct (Hdocs docs eq_refl) as [Hlen Hall]. split; [simpl; congruence|].
      by constructor.
    + split; [congruence|done].
Qed.

Lemma submitAgreement_consistent E w now payload :
  storeConsistent w → storeConsistent (submitAgreement E w now payload).2.
Proof.
  intros Hw. unfold submitAgreement.
  destruct (negb (forallb _ _)); [done|]. cbv zeta.
  destruct (draftDocuments _ _ _ _ _ _ _) as [[documents|m] w1] eqn:Hdraft;
    destruct (draftDocuments_spec _ _ _ _ _ _ _ _ _ Hdraft) as [Hagr Hdocs].
  - destruct (Hdocs documents eq_refl) as [Hlen Hall]. cbn [snd].
    apply (storeConsistent_agreements (save w1 {|
             ag_id := nextObjectId w; ag_data := payload; ag_submittedAt := now;
             ag_documents := documents;
             ag_clientSignToken := head documents ≫= d_clientSignToken;
             ag_clientSigned := false; ag_directorSigned := false;
             ag_clientSignedDate := None; ag_directorSignedDate := None |})); [done|].
    apply storeConsistent_save.
    + apply (storeConsistentExcept_agreements _ w); [done|]. by apply storeConsistent_except.
    + assert (documents ≠ []) as Hne by (by destruct documents).
      split; cbn.
      * done.
      * symmetry. apply forallb_all_false; [done|]. intros d Hd.
        by apply (proj1 (Forall_forall _ _) Hall d Hd).
      * symmetry. apply forallb_all_false; [done|]. intros d Hd.
        unfold slotsComplete.
        by rewrite (proj2 (proj1 (Forall_forall _ _) Hall d Hd)).
      * intros _. eapply Forall_impl; [exact Hall|]. by intros d [_ ?].
  - cbn [snd]. by apply (storeConsistent_agreements w).
Qed.

Lemma previewPdf_consistent E w now token :
  storeConsistent w → storeConsistent (previewPdf E w now token).2.
Proof.
  intros Hw. unfold previewPdf.
  destruct (jwt_verify token now) as [decoded|m]; [|done].
  destruct (agreements w !! agid decoded) as [ag|] eqn:Hag; [|done].
  cbv zeta.
  match goal with |- context [match ?f with Some _ => _ | None => _ end] =>
    destruct f as [[i doc]|] eqn:Hfound end; [|done].
  assert (ag_documents ag !! i = Some doc) as Hl.
  { destruct (truthy (docName decoded)).
    - by apply list_find_lookup in Hfound as [? _].
    - destruct (ag_documents ag) as [|d l]; [done|]. by injection Hfound as <- <-. }
  destruct (truthy _ && existsSync _ _); [done|].
  destruct (ensureDraftExists E w now ag i doc) as [[[p ag1] w1]|m] eqn:Hens; [|done].
  cbn [snd].
  by destruct (ensureDraftExists_consistent _ _ _ _ _ _ _ _ _ Hens (proj2 (Hw _ _ Hag)) Hl Hw)
    as (_ & ? & _).
Qed.

Lemma savePricingSummary_consistent w now s :
  storeConsistent w → storeConsistent (savePricingSummary w now s).2.
Proof.
  intros Hw. unfold savePricingSummary. by repeat case_match.
Qed.

(** In every world the server can reach, the flags of every stored
    agreement are consistent. *)
Lemma reachable_consistent E w : reachable E w → storeConsistent w.
Proof.
  induction 1 as [fs|w now e _ IH|w fs _ IH].
  - intros k ag. cbn. by rewrite lookup_empty.
  - destruct e; cbn [handle].
    + by apply submitAgreement_consistent.
    + by apply savePricingSummary_consistent.
    + by apply previewPdf_consistent.
    + by apply clientSign_consistent.
    + by apply directorSign_consistent.
  - exact IH.
Qed.





Example signed4_flags :
  (λ ag, (ag_clientSigned ag, ag_directorSigned ag,
          map (λ d, (d_clientSigned d, map ds_signed (d_directors d))) (ag_documents ag)))
    <$> agreements signed4 !! 0%nat
  = Some (true, false, [(true, [false; false]); (true, [false; false]);
                        (true, [false; false]); (true, [false; false])]).
Proof. vm_compute. reflexivity. Qed.

Example signed1_flags :
  (λ ag, (ag_clientSigned ag, ag_directorSigned ag,
          map (λ d, (d_clientSigned d, map ds_signed (d_directors d))) (ag_documents ag)))
    <$> agreements signed1 !! 0%nat
  = Some (false, false, [(true, []); (false, []); (false, []); (false, [])]).
Proof. vm_compute. reflexivity. Qed.



(** ** The client chain: next document or hand-over to the directors *)

Lemma list_find_insert {A} (P : A → Prop) `{∀ x, Decision (P x)} (l : list A) j x x' :
  list_find P l = Some (j, x) → P x' → list_find P (<[j:=x']> l) = Some (j, x').
Proof.
  intros Hf Hx'. apply list_find_Some in Hf as (Hl & Hx & Hbefore).
  apply list_find_Some. split; [|split; [done|]].
  - apply list_lookup_insert_eq. by eapply lookup_lt_Some.
  - intros i y Hi Hlt. rewrite list_lookup_insert_ne in Hi by lia. by eapply Hbefore.
Qed.

Lemma clientSign_next_spec E w now ag resp w' :
  clientSign_next E w now ag = (resp, w') →
  ∃ ag',
    agreements w' !! ag_id ag = Some ag'
    ∧ (∀ i d, ag_documents ag !! i = Some d →
              ∃ d', ag_documents ag' !! i = Some d' ∧ d_name d' = d_name d
                    ∧ d_clientSigned d' = d_clientSigned d)
    ∧ match list_find (λ d, d_clientSigned d = false) (ag_documents ag') with
      | Some (j, nextDoc) =>
          body resp = NextDocToken (jwt_sign (clientClaims ag (d_name nextDoc)) now)
          ∧ d_clientSignToken nextDoc = Some (jwt_sign (clientClaims ag (d_name nextDoc)) now)
      | None =>
          body resp = Complete
          ∧ ∀ d, d ∈ ag_documents ag' →
                 length (d_directors d) = length (getDirectorEmails E)
                 ∧ ∀ idx email,
                     getDirectorEmails E !! idx = Some email →
                     ∃ slot, d_directors d !! idx = Some slot
                             ∧ ds_email slot = email ∧ ds_signed slot = false
                             ∧ ds_directorSignToken slot
                               = Some (jwt_sign (directorClaims ag (d_name d) idx) now)
      end.
Proof.
  unfold clientSign_next.
  destruct (list_find _ (ag_documents ag)) as [[j nextDoc]|] eqn:Hfind.
  - intros [= <- <-].
    set (t := jwt_sign (clientClaims ag (d_name nextDoc)) now).
    exists (set_document ag j (set_clientSignToken nextDoc t)).
    split; [cbn; by rewrite lookup_insert_eq|]. split.
    + intros i d Hi. cbn. destruct (decide (i = j)) as [->|Hne].
      * pose proof (list_find_lookup _ _ _ _ Hfind) as [Hl _].
        rewrite Hl in Hi. injection Hi as <-.
        eexists. split; [apply list_lookup_insert_eq; by eapply lookup_lt_Some|done].
      * exists d. by rewrite list_lookup_insert_ne.
    + cbn [ag_documents set_document set_documents].
      rewrite (list_find_insert _ _ _ _ (set_clientSignToken nextDoc t) Hfind).
      * done.
      * by apply list_find_lookup in Hfind as [_ ?].
  - intros [= <- <-]. apply list_find_None in Hfind.
    set (f := λ d, set_directors d (newDirectorSlots ag d (getDirectorEmails E) now)).
    exists (set_agClientSigned (set_documents ag (map f (ag_documents ag))) now).
    split; [rewrite agreements_mails; cbn; by rewrite lookup_insert_eq|]. split.
    + intros i d Hi. exists (f d). cbn. by rewrite list_lookup_fmap, Hi.
    + cbn [ag_documents set_agClientSigned set_documents].
      assert (list_find (λ d, d_clientSigned d = false) (map f (ag_documents ag)) = None)
        as ->.
      { apply list_find_None, Forall_fmap. eapply Forall_impl; [exact Hfind|]. by intros d. }
      split; [done|]. intros d Hd.
      apply list_elem_of_fmap in Hd as (d0 & -> & _).
      subst f. cbn [d_directors d_name set_directors]. unfold newDirectorSlots.
      split; [by rewrite length_imap|].
      intros idx email Hidx. rewrite list_lookup_imap, Hidx. cbn. by eexists.
Qed.

Lemma clientSign_heal_shape E w now ag i doc inFile ag1 w1 :
  clientSign_heal E w now ag i doc = Ok (inFile, ag1, w1) →
  ag_documents ag !! i = Some doc →
  ag_id ag1 = ag_id ag
  ∧ ∃ doc1, ag_documents ag1 !! i = Some doc1 ∧ d_name doc1 = d_name doc.
Proof.
  intros H Hl. unfold clientSign_heal in H.
  destruct (truthy _ && existsSync _ _).
  - injection H as <- <- <-. split; [done|]. by exists doc.
  - destruct (ensureDraftExists E w now ag i doc) as [[[p agE] wE]|m] eqn:Hens; [|done].
    injection H as <- <- <-.
    apply ensureDraftExists_Ok in Hens as (w0 & _ & _ & ->).
    pose proof (lookup_lt_Some _ _ _ Hl) as Hlt.
    split; [done|]. cbn.
    rewrite !list_lookup_insert_eq by (rewrite ?length_insert; done).
    eexists. split; [done|]. cbn.
    by destruct (truthy (d_draftPdfPath doc)).
Qed.

(** C3. After a successful client-sign of one document (status 200),
    the document is recorded as signed, and: if some document of the
    agreement is still unsigned by the client, the response carries a
    token minted in this request for the first such document in list
    order, and that token is stored on that document; otherwise the
    response reports completion and every document holds one director
    slot per configured director email, in order, unsigned and with a
    director token minted for that document and that index. *)
Theorem client_sign_chain (E : Runtime) (w w' : World) (now : Z) (req : SignRequest)
    (resp : Response) :
  clientSign E w now req = (resp, w') → status resp = 200%nat →
  ∃ decoded ag ag',
    jwt_verify (rq_token req) now = Ok decoded
    ∧ agreements w !! agid decoded = Some ag
    ∧ agreements w' !! ag_id ag = Some ag'
    ∧ (∃ i doc, ag_documents ag' !! i = Some doc
                ∧ Some (d_name doc) = docName decoded ∧ d_clientSigned doc = true)
    ∧ match list_find (λ d, d_clientSigned d = false) (ag_documents ag') with
      | Some (j, nextDoc) =>
          body resp = NextDocToken (jwt_sign (clientClaims ag (d_name nextDoc)) now)
          ∧ d_clientSignToken nextDoc = Some (jwt_sign (clientClaims ag (d_name nextDoc)) now)
      | None =>
          body resp = Complete
          ∧ ∀ d, d ∈ ag_documents ag' →
                 length (d_directors d) = length (getDirectorEmails E)
                 ∧ ∀ idx email,
                     getDirectorEmails E !! idx = Some email →
                     ∃ slot, d_directors d !! idx = Some slot
                             ∧ ds_email slot = email ∧ ds_signed slot = false
                             ∧ ds_directorSignToken slot
                               = Some (jwt_sign (directorClaims ag (d_name d) idx) now)
      end.
Proof.
  unfold clientSign.
  destruct (negb (truthy (rq_signature req))); [by intros [= <- _]|].
  destruct (jwt_verify (rq_token req) now) as [decoded|m]; [|by intros [= <- _]].
  destruct (negb (bool_decide (role decoded = "client"))); [by intros [= <- _]|].
  destruct (agreements w !! agid decoded) as [ag|] eqn:Hag; [|by intros [= <- _]].
  destruct (list_find _ (ag_documents ag)) as [[i doc]|] eqn:Hfind; [|by intros [= <- _]].
  apply list_find_lookup in Hfind as [Hl Hname].
  destruct (d_clientSigned doc); [by intros [= <- _]|].
  destruct (findTemplate (d_name doc)) as [template|]; [|by intros [= <- _]].
  destruct (clientSign_heal E w now ag i doc) as [[[inFile ag1] w1]|m] eqn:Hheal;
    [|by intros [= <- _]].
  destruct (clientSign_heal_shape _ _ _ _ _ _ _ _ _ Hheal Hl) as (Hid & doc1 & Hl1 & Hn1).
  rewrite Hl1. cbn [default from_option id]. unfold clientSign_stamp. cbv zeta.
  destruct (stampSignatureWithTime _ _ _ _ _ _ _ _) as [[w2 draw]|m]; [|by intros [= <- _]].
  intros Hnext _.
  match type of Hnext with clientSign_next _ _ _ ?a = _ => set (ag2 := a) in * end.
  destruct (clientSign_next_spec _ _ _ _ _ _ Hnext) as (ag' & Hstored & Hdocs & Hchain).
  assert (ag_id ag2 = ag_id ag) as Hid2 by (subst ag2; done).
  exists decoded, ag, ag'. split; [done|]. split; [done|].
  split; [by rewrite <- Hid2|]. split.
  - assert (∃ d, ag_documents ag2 !! i = Some d ∧ d_name d = d_name doc1
                 ∧ d_clientSigned d = true) as (d2 & Hd2 & Hn2 & Hs2).
    { subst ag2. cbn. eexists.
      split; [apply list_lookup_insert_eq; by eapply lookup_lt_Some|done]. }
    destruct (Hdocs i d2 Hd2) as (d' & Hd' & Hname' & Hsigned').
    exists i, d'. split; [done|]. split; congruence.
  - unfold clientClaims, directorClaims in *. by rewrite Hid2 in Hchain.
Qed.

(** ** A consumed client token *)

Lemma docsExtend_refl l : docsExtend l l.
Proof. intros i d Hd. by exists d. Qed.

Lemma docsExtend_trans l1 l2 l3 : docsExtend l1 l2 → docsExtend l2 l3 → docsExtend l1 l3.
Proof.
  intros H12 H23 i d Hd. destruct (H12 i d Hd) as (d2 & Hd2 & Hn2 & Hs2).
  destruct (H23 i d2 Hd2) as (d3 & Hd3 & Hn3 & Hs3).
  exists d3. split; [done|]. split; [congruence|auto].
Qed.

Lemma docsExtend_insert l i d d' :
  l !! i = Some d → d_name d' = d_name d →
  (d_clientSigned d = true → d_clientSigned d' = true) →
  docsExtend l (<[i:=d']> l).
Proof.
  intros Hl Hn Hs j x Hx. destruct (decide (j = i)) as [->|Hne].
  - rewrite Hl in Hx. injection Hx as <-. exists d'.
    split; [apply list_lookup_insert_eq; by eapply lookup_lt_Some|done].
  - exists x. by rewrite list_lookup_insert_ne.
Qed.

Lemma docsExtend_find l l' (n : option string) i d :
  docsExtend l l' →
  list_find (λ d, Some (d_name d) = n) l = Some (i, d) →
  ∃ d', list_find (λ d, Some (d_name d) = n) l' = Some (i, d')
        ∧ (d_clientSigned d = true → d_clientSigned d' = true).
Proof.
  intros Hext Hf. apply list_find_Some in Hf as (Hl & Hn & Hbefore).
  destruct (Hext i d Hl) as (d' & Hl' & Hn' & Hs'). exists d'. split; [|done].
  apply list_find_Some. split; [done|]. split; [by rewrite Hn'|].
  intros j y Hy Hlt.
  assert (∃ x, l !! j = Some x) as [x Hx].
  { apply lookup_lt_is_Some. apply lookup_lt_Some in Hl. lia. }
  destruct (Hext j x Hx) as (y' & Hy' & Hny & _).
  rewrite Hy in Hy'. injection Hy' as <-. rewrite Hny. by eapply Hbefore.
Qed.

Lemma clientSign_heal_extend E w now ag i doc inFile ag1 w1 :
  clientSign_heal E w now ag i doc = Ok (inFile, ag1, w1) →
  ag_documents ag !! i = Some doc →
  docsExtend (ag_documents ag) (ag_documents ag1).
Proof.
  intros H Hl. unfold clientSign_heal in H.
  destruct (truthy _ && existsSync _ _).
  - injection H as <- <- <-. apply docsExtend_refl.
  - destruct (ensureDraftExists E w now ag i doc) as [[[p agE] wE]|m] eqn:Hens; [|done].
    injection H as <- <- <-.
    apply ensureDraftExists_Ok in Hens as (w0 & _ & _ & ->).
    pose proof (lookup_lt_Some _ _ _ Hl) as Hlt. cbn.
    rewrite list_lookup_insert_eq by done. cbn.
    set (docE := if truthy (d_draftPdfPath doc) then doc else set_draftPdfPath doc p).
    assert (d_name docE = d_name doc ∧ d_clientSigned docE = d_clientSigned doc)
      as [HnE HsE] by (subst docE; by destruct (truthy _)).
    apply (docsExtend_trans _ (<[i:=docE]> (ag_documents ag))).
    + apply (docsExtend_insert _ _ doc); [done..|congruence].
    + apply (docsExtend_insert _ _ docE); [|done..].
      by apply list_lookup_insert_eq.
Qed.

(** A successful client-sign leaves the signed document where the token
    finds it, with its client flag set. *)
Lemma clientSign_success E w w' now req resp :
  clientSign E w now req = (resp, w') → status resp = 200%nat →
  ∃ decoded ag ag' i doc',
    jwt_verify (rq_token req) now = Ok decoded
    ∧ agreements w !! agid decoded = Some ag
    ∧ agreements w' !! ag_id ag = Some ag'
    ∧ list_find (λ d, Some (d_name d) = docName decoded) (ag_documents ag') = Some (i, doc')
    ∧ d_clientSigned doc' = true.
Proof.
  unfold clientSign.
  destruct (negb (truthy (rq_signature req))); [by intros [= <- _]|].
  destruct (jwt_verify (rq_token req) now) as [decoded|m]; [|by intros [= <- _]].
  destruct (negb (bool_decide (role decoded = "client"))); [by intros [= <- _]|].
  destruct (agreements w !! agid decoded) as [ag|] eqn:Hag; [|by intros [= <- _]].
  destruct (list_find _ (ag_documents ag)) as [[i doc]|] eqn:Hfind; [|by intros [= <- _]].
  pose proof (list_find_lookup _ _ _ _ Hfind) as [Hl Hname].
  destruct (d_clientSigned doc); [by intros [= <- _]|].
  destruct (findTemplate (d_name doc)) as [template|]; [|by intros [= <- _]].
  destruct (clientSign_heal E w now ag i doc) as [[[inFile ag1] w1]|m] eqn:Hheal;
    [|by intros [= <- _]].
  destruct (clientSign_heal_shape _ _ _ _ _ _ _ _ _ Hheal Hl) as (Hid & doc1 & Hl1 & Hn1).
  pose proof (clientSign_heal_extend _ _ _ _ _ _ _ _ _ Hheal Hl) as Hext1.
  rewrite Hl1. cbn [default from_option id]. unfold clientSign_stamp. cbv zeta.
  destruct (stampSignatureWithTime _ _ _ _ _ _ _ _) as [[w2 draw]|m]; [|by intros [= <- _]].
  intros Hnext _.
  match type of Hnext with clientSign_next _ _ _ (set_document ag1 i ?d) = _ =>
    set (doc2 := d) in * end.
  destruct (clientSign_next_spec _ _ _ _ _ _ Hnext) as (ag' & Hstored & Hdocs & _).
  exists decoded, ag, ag'.
  assert (docsExtend (ag_documents ag) (ag_documents ag')) as Hext.
  { apply (docsExtend_trans _ _ _ Hext1).
    apply (docsExtend_trans _ (<[i:=doc2]> (ag_documents ag1))).
    - by apply (docsExtend_insert _ _ doc1).
    - intros j d Hd. destruct (Hdocs j d Hd) as (d' & Hd' & Hn' & Hs').
      exists d'. split; [done|]. split; [done|]. congruence. }
  destruct (docsExtend_find _ _ _ _ _ Hext Hfind) as (doc' & Hfind' & _).
  exists i, doc'. split; [done|]. split; [done|]. split; [by rewrite <- Hid|].
  split; [done|].
  apply list_find_lookup in Hfind' as [Hl' _].
  destruct (Hdocs i doc2) as (d' & Hd' & _ & Hs').
  { cbn. apply list_lookup_insert_eq. by eapply lookup_lt_Some. }
  rewrite Hl' in Hd'. injection Hd' as <-. by rewrite Hs'.
Qed.

(** The token of a successful client-sign is spent: presented again
    while it still verifies, it is rejected and changes nothing. *)
Lemma client_token_single_use E w w' now now' req req' resp decoded :
  reachable E w →
  clientSign E w now req = (resp, w') → status resp = 200%nat →
  jwt_verify (rq_token req) now = Ok decoded →
  jwt_verify (rq_token req') now' = Ok decoded →
  truthy (rq_signature req') = true →
  clientSign E w' now' req' = (reply 400 (Message "Document already signed"), w').
Proof.
  intros Hreach Hrun Hok Hverify Hverify' Hsig.
  destruct (clientSign_success _ _ _ _ _ _ Hrun Hok)
    as (decoded0 & ag & ag' & i & doc' & Hv & Hag & Hag' & Hfind & Hsigned).
  rewrite Hverify in Hv. injection Hv as <-.
  destruct (reachable_consistent E w Hreach _ _ Hag) as [Hkey _].
  rewrite Hkey in Hag'.
  assert (role decoded = "client") as Hrole.
  { revert Hrun. unfold clientSign.
    destruct (negb (truthy (rq_signature req))); [intros [= <- _]; discriminate Hok|].
    rewrite Hverify.
    destruct (bool_decide (role decoded = "client")) eqn:Hr;
      [by apply bool_decide_eq_true in Hr|].
    intros [= <- _]. discriminate Hok. }
  by apply (client_signed_rejected E w' now' req' decoded ag' i doc').
Qed.

(** ** A consumed director token *)

Lemma slotsKeep_refl l : slotsKeep l l.
Proof. intros k s Hs. by exists s. Qed.

Lemma slotsKeep_insert l k s s' :
  l !! k = Some s → (ds_signed s = true → ds_signed s' = true) → slotsKeep l (<[k:=s']> l).
Proof.
  intros Hl Hs j x Hx. destruct (decide (j = k)) as [->|Hne].
  - rewrite Hl in Hx. injection Hx as <-. exists s'.
    split; [apply list_lookup_insert_eq; by eapply lookup_lt_Some|done].
  - exists x. by rewrite list_lookup_insert_ne.
Qed.

Lemma docsKeep_refl l : docsKeep l l.
Proof. intros i d Hd. exists d. repeat split; try done. apply slotsKeep_refl. Qed.

Lemma docsKeep_trans l1 l2 l3 : docsKeep l1 l2 → docsKeep l2 l3 → docsKeep l1 l3.
Proof.
  intros H12 H23 i d Hd. destruct (H12 i d Hd) as (d2 & Hd2 & Hn2 & Hs2 & Hk2).
  destruct (H23 i d2 Hd2) as (d3 & Hd3 & Hn3 & Hs3 & Hk3).
  exists d3. split; [done|]. split; [congruence|]. split; [auto|].
  intros k s Hs. destruct (Hk2 k s Hs) as (s2 & Hs2' & Hsig2).
  destruct (Hk3 k s2 Hs2') as (s3 & Hs3' & Hsig3). exists s3. split; [done|auto].
Qed.

Lemma docsKeep_insert l i d d' :
  l !! i = Some d → d_name d' = d_name d →
  (d_clientSigned d = true → d_clientSigned d' = true) →
  slotsKeep (d_directors d) (d_directors d') →
  docsKeep l (<[i:=d']> l).
Proof.
  intros Hl Hn Hs Hk j x Hx. destruct (decide (j = i)) as [->|Hne].
  - rewrite Hl in Hx. injection Hx as <-. exists d'.
    split; [apply list_lookup_insert_eq; by eapply lookup_lt_Some|done].
  - exists x. rewrite list_lookup_insert_ne by done.
    repeat split; try done. apply slotsKeep_refl.
Qed.

Lemma docsKeep_find l l' (n : option string) i d :
  docsKeep l l' →
  list_find (λ d, Some (d_name d) = n) l = Some (i, d) →
  ∃ d', list_find (λ d, Some (d_name d) = n) l' = Some (i, d')
        ∧ (d_clientSigned d = true → d_clientSigned d' = true)
        ∧ slotsKeep (d_directors d) (d_directors d').
Proof.
  intros Hext Hf. apply list_find_Some in Hf as (Hl & Hn & Hbefore).
  destruct (Hext i d Hl) as (d' & Hl' & Hn' & Hs' & Hk'). exists d'. split; [|done].
  apply list_find_Some. split; [done|]. split; [by rewrite Hn'|].
  intros j y Hy Hlt.
  assert (∃ x, l !! j = Some x) as [x Hx].
  { apply lookup_lt_is_Some. apply lookup_lt_Some in Hl. lia. }
  destruct (Hext j x Hx) as (y' & Hy' & Hny & _).
  rewrite Hy in Hy'. injection Hy' as <-. rewrite Hny. by eapply Hbefore.
Qed.

Lemma directorSign_next_keep E w now ag idx resp w' :
  directorSign_next E w now ag idx = (resp, w') →
  agreements w !! ag_id ag = Some ag →
  ∃ ag', agreements w' !! ag_id ag = Some ag'
         ∧ docsKeep (ag_documents ag) (ag_documents ag').
Proof.
  unfold directorSign_next. intros Hrun Hstored.
  destruct (list_find _ (ag_documents ag)) as [[j nextDoc]|] eqn:Hfind.
  - apply list_find_lookup in Hfind as [Hl _].
    destruct (d_directors nextDoc !! idx) as [slot|] eqn:Hslot.
    2:{ injection Hrun as <- <-. exists ag. split; [done|apply docsKeep_refl]. }
    destruct (tokenTruthy (ds_directorSignToken slot)); injection Hrun as <- <-.
    + exists ag. split; [done|apply docsKeep_refl].
    + eexists. split; [cbn; by rewrite lookup_insert_eq|]. cbn.
      apply (docsKeep_insert _ _ nextDoc); [done..|]. cbn.
      by apply (slotsKeep_insert _ _ slot).
  - destruct (allDirectorsComplete ag); injection Hrun as <- <-.
    + eexists. split; [cbn; by rewrite lookup_insert_eq|]. apply docsKeep_refl.
    + exists ag. split; [done|apply docsKeep_refl].
Qed.

(** A successful director-sign leaves the signed slot where the token
    finds it, signed, on a document signed by the client. *)
Lemma directorSign_success E w w' now req resp :
  directorSign E w now req = (resp, w') → status resp = 200%nat →
  ∃ decoded ag ag' i doc' slot',
    jwt_verify (rq_token req) now = Ok decoded
    ∧ role decoded = "director"
    ∧ agreements w !! agid decoded = Some ag
    ∧ agreements w' !! ag_id ag = Some ag'
    ∧ list_find (λ d, Some (d_name d) = docName decoded) (ag_documents ag') = Some (i, doc')
    ∧ d_clientSigned doc' = true
    ∧ d_directors doc' !! default 0%nat (directorIndex decoded) = Some slot'
    ∧ ds_signed slot' = true.
Proof.
  unfold directorSign.
  destruct (negb (truthy (rq_signature req))); [by intros [= <- _]|].
  destruct (jwt_verify (rq_token req) now) as [decoded|m]; [|by intros [= <- _]].
  destruct (bool_decide (role decoded = "director")) eqn:Hrole; [|by intros [= <- _]].
  apply bool_decide_eq_true in Hrole. cbn [negb]. cbv zeta.
  destruct (agreements w !! agid decoded) as [ag|] eqn:Hag; [|by intros [= <- _]].
  destruct (list_find _ (ag_documents ag)) as [[i doc]|] eqn:Hfind; [|by intros [= <- _]].
  pose proof (list_find_lookup _ _ _ _ Hfind) as [Hl Hname].
  destruct (d_clientSigned doc) eqn:Hclient; [|by intros [= <- _]]. cbn [negb].
  destruct (d_directors doc !! _) as [dstate|] eqn:Hslot; [|by intros [= <- _]].
  destruct (ds_signed dstate); [by intros [= <- _]|].
  destruct (getDirectorSigSpec _ _) as [sigSpec|]; [|by intros [= <- _]].
  unfold directorSign_stamp. cbv zeta.
  destruct (negb _); [by intros [= <- _]|].
  destruct (stampSignatureWithTime _ _ _ _ _ _ _ _) as [[w2 draw]|m]; [|by intros [= <- _]].
  intros Hnext _.
  match type of Hnext with directorSign_next _ _ _ (set_document ag i ?d) _ = _ =>
    set (doc1 := d) in * end.
  destruct (directorSign_next_keep _ _ _ _ _ _ _ Hnext) as (ag' & Hstored & Hkeep).
  { cbn. by rewrite lookup_insert_eq. }
  assert (docsKeep (ag_documents ag) (ag_documents ag')) as Hall.
  { apply (docsKeep_trans _ (<[i:=doc1]> (ag_documents ag))); [|done].
    apply (docsKeep_insert _ _ doc); [done..|]. subst doc1. cbn.
    by apply (slotsKeep_insert _ _ dstate). }
  destruct (docsKeep_find _ _ _ _ _ Hall Hfind) as (doc' & Hfind' & Hc' & _).
  pose proof (list_find_lookup _ _ _ _ Hfind') as [Hl' _].
  destruct (Hkeep i doc1) as (d' & Hd' & _ & _ & Hslots).
  { cbn. apply list_lookup_insert_eq. by eapply lookup_lt_Some. }
  cbn in Hd'. rewrite Hl' in Hd'. injection Hd' as <-.
  edestruct (Hslots (default 0%nat (directorIndex decoded)))
    as (slot' & Hslot' & Hsigned').
  { subst doc1. cbn. apply list_lookup_insert_eq. by eapply lookup_lt_Some. }
  exists decoded, ag, ag', i, doc', slot'.
  repeat split; try done; auto.
Qed.

(** The token of a successful director-sign is spent: presented again
    while it still verifies, it is rejected and changes nothing. *)
Lemma director_token_single_use E w w' now now' req req' resp decoded :
  reachable E w →
  directorSign E w now req = (resp, w') → status resp = 200%nat →
  jwt_verify (rq_token req) now = Ok decoded →
  jwt_verify (rq_token req') now' = Ok decoded →
  truthy (rq_signature req') = true →
  directorSign E w' now' req' = (reply 400 (Message "Document already signed by you"), w').
Proof.
  intros Hreach Hrun Hok Hverify Hverify' Hsig.
  destruct (directorSign_success _ _ _ _ _ _ Hrun Hok)
    as (decoded0 & ag & ag' & i & doc' & slot' & Hv & Hrole & Hag & Hag' & Hfind
        & Hclient & Hslot & Hsigned).
  rewrite Hverify in Hv. injection Hv as <-.
  destruct (reachable_consistent E w Hreach _ _ Hag) as [Hkey _].
  rewrite Hkey in Hag'.
  rewrite (director_signed_rejected E w' now' req' decoded ag' i doc' slot') by done.
  by rewrite Hclient.
Qed.

(** ** Concrete runs of the routes *)

Lemma consumed_token_rejected_witness :
  clientSign hostUTC signed1 (minutes 5) (signWith (clientToken "ServiceAgreement"))
  = (reply 400 (Message "Document already signed"), signed1)
  ∧ directorSign hostUTC countersigned1 (minutes 6)
      (signWith (directorToken "ServiceAgreement" 0 (minutes 4)))
    = (reply 400 (Message "Document already signed by you"), countersigned1).
Proof.
  split.
  - refine (proj1 (consumed_token_rejected hostUTC signed1 (minutes 5)
                     (signWith (clientToken "ServiceAgreement"))
                     {| agid := 0; docName := Some "ServiceAgreement"; role := "client";
                        directorIndex := None |}
                     (acmeAgreement signed1) 0 (acmeDocument signed1 0) _ _ _ _) _ _);
      vm_compute; reflexivity.
  - refine (proj2 (consumed_token_rejected hostUTC countersigned1 (minutes 6)
                     (signWith (directorToken "ServiceAgreement" 0 (minutes 4)))
                     {| agid := 0; docName := Some "ServiceAgreement"; role := "director";
                        directorIndex := Some 0%nat |}
                     (acmeAgreement countersigned1) 0 (acmeDocument countersigned1 0)
                     _ _ _ _) _ (acmeSlot countersigned1 0 0) _ _);
      vm_compute; reflexivity.
Defined.

Lemma director_before_client_rejected_witness :
  directorSign hostUTC signed1 (minutes 2)
    (signWith (directorToken "PricingSchedule" 1 (minutes 1)))
  = (reply 400 (Message "Client must sign first"), signed1).
Proof.
  refine (director_before_client_rejected hostUTC signed1 (minutes 2)
            (signWith (directorToken "PricingSchedule" 1 (minutes 1)))
            {| agid := 0; docName := Some "PricingSchedule"; role := "director";
               directorIndex := Some 1%nat |}
            (acmeAgreement signed1) 2 (acmeDocument signed1 2) _ _ _ _ _ _);
    vm_compute; reflexivity.
Defined.

Example first_signature_run :
  (clientSign hostUTC submitted (minutes 1) (signWith (clientToken "ServiceAgreement"))).1
  = reply 200 (NextDocToken
                 (jwt_sign {| agid := 0; docName := Some "CustomerInformation";
                              role := "client"; directorIndex := None |} (minutes 1))).
Proof. vm_compute. reflexivity. Qed.

Lemma client_sign_chain_witness :
  let req := signWith (clientToken "ServiceAgreement") in
  let run := clientSign hostUTC submitted (minutes 1) req in
  ∃ decoded ag ag',
    jwt_verify (rq_token req) (minutes 1) = Ok decoded
    ∧ agreements submitted !! agid decoded = Some ag
    ∧ agreements run.2 !! ag_id ag = Some ag'
    ∧ (∃ i doc, ag_documents ag' !! i = Some doc
                ∧ Some (d_name doc) = docName decoded ∧ d_clientSigned doc = true)
    ∧ match list_find (λ d, d_clientSigned d = false) (ag_documents ag') with
      | Some (j, nextDoc) =>
          body run.1 = NextDocToken (jwt_sign (clientClaims ag (d_name nextDoc)) (minutes 1))
          ∧ d_clientSignToken nextDoc
            = Some (jwt_sign (clientClaims ag (d_name nextDoc)) (minutes 1))
      | None =>
          body run.1 = Complete
          ∧ ∀ d, d ∈ ag_documents ag' →
                 length (d_directors d) = length (getDirectorEmails hostUTC)
                 ∧ ∀ idx email,
                     getDirectorEmails hostUTC !! idx = Some email →
                     ∃ slot, d_directors d !! idx = Some slot
                             ∧ ds_email slot = email ∧ ds_signed slot = false
                             ∧ ds_directorSignToken slot
                               = Some (jwt_sign (directorClaims ag (d_name d) idx) (minutes 1))
      end.
Proof.
  intros req run.
  apply (client_sign_chain hostUTC submitted run.2 (minutes 1) req run.1).
  - apply surjective_pairing.
  - subst run req. rewrite first_signature_run. reflexivity.
Defined.

Example last_signature_run :
  (λ r, (r.1, (λ ag, (ag_clientSigned ag,
                      map (λ d, map (λ s, (ascii_string (ds_email s), ds_signed s,
                                           isSome (ds_directorSignToken s)))
                                    (d_directors d)) (ag_documents ag)))
                <$> agreements r.2 !! 0%nat))
    (clientSign hostUTC
       (run (run signed1 (minutes 2)
                 (ClientSign (signWith (clientToken "CustomerInformation"))))
            (minutes 3) (ClientSign (signWith (clientToken "PricingSchedule"))))
       (minutes 4) (signWith (clientToken "ConfidentialityAgreement")))
  = (reply 200 Complete,
     Some (true,
           let slots := [("d1@bpo.example", false, true); ("d2@bpo.example", false, true)] in
           [slots; slots; slots; slots])).
Proof. vm_compute. reflexivity. Qed.

(** ** The draft path under regeneration *)

(** On the signing route the path regenerated by the self-healer is
    written over the document's draft path, whatever was recorded there
    (line 1003). *)
Lemma clientSign_heal_replaces_path E w now ag i doc inFile ag1 w1 :
  clientSign_heal E w now ag i doc = Ok (inFile, ag1, w1) →
  ag_documents ag !! i = Some doc →
  truthy (d_draftPdfPath doc) && existsSync w (default "" (d_draftPdfPath doc)) = false →
  d_draftPdfPath <$> ag_documents ag1 !! i = Some (Some inFile)
  ∧ inFile = path_join (PDF_DIR E)
               ("rehydrated-" +:+ d_name doc +:+ "-" +:+ pretty now +:+ ".pdf").
Proof.
  intros H Hl Hmiss. unfold clientSign_heal in H. rewrite Hmiss in H.
  destruct (ensureDraftExists E w now ag i doc) as [[[p agE] wE]|m] eqn:Hens; [|done].
  injection H as <- <- <-. split.
  - cbn. rewrite list_lookup_insert_eq; [done|].
    apply ensureDraftExists_Ok in Hens as (w0 & _ & _ & ->). cbn.
    rewrite length_insert. by eapply lookup_lt_Some.
  - unfold ensureDraftExists in Hens.
    destruct (findTemplate (d_name doc)) as [template|]; [|done].
    destruct (negb (existsSync w _)); [done|].
    destruct (drawFieldsOnPdf _ _ _ _ _ _) as [w0|m]; [|done].
    by injection Hens as <- _ _.
Qed.

Lemma lostDraft_reachable : reachable hostUTC lostDraft.
Proof.
  cbv beta zeta delta [lostDraft submitted run].
  apply reachable_disk, reachable_request, reachable_boot.
Qed.

(** C5, evaluated where the code departs from it.  The draft of the
    service agreement is recorded on the document but lost from disk.  A
    preview regenerates it and keeps the recorded path; a client-sign
    regenerates it and replaces the recorded path with the regenerated
    one. *)
Theorem clientSign_replaces_draft_path :
  draftPathOf lostDraft 0 0 = Some "/app/pdfs/draft-ServiceAgreement-1704207845123.pdf"
  ∧ existsSync lostDraft "/app/pdfs/draft-ServiceAgreement-1704207845123.pdf" = false
  ∧ draftPathOf (run lostDraft (minutes 1) (Preview (clientToken "ServiceAgreement"))) 0 0
    = Some "/app/pdfs/draft-ServiceAgreement-1704207845123.pdf"
  ∧ draftPathOf (run lostDraft (minutes 1)
                     (ClientSign (signWith (clientToken "ServiceAgreement")))) 0 0
    = Some "/app/pdfs/rehydrated-ServiceAgreement-1704207905123.pdf".
Proof. repeat split; vm_compute; reflexivity. Qed.
